(** * Burner Chat server: rooms, sessions and the deferred room reaper

    A shallow embedding of [src/index.js]: the in-memory room store
    ([rooms], a JS [Map] from room identifier to a room object), the
    per-socket [userData], the three Socket.IO handlers ([join_room],
    [send_message], [disconnect]) and the [setTimeout] callback that reaps
    empty rooms.

    Conventions.
    - A JS string is the list of its UTF-16 code units ([list N]); this is
      what [trim], [substring] and [length] work on.
    - The [Map] is a [gmap], a room's [Set] of socket ids is a [gset]; room
      objects are shared and mutated in place, so every mutation is written
      back to the store.
    - What the handlers obtain from the platform is an argument of the
      handler: the text of [Math.random().toString(36)], the instant of
      [new Date()], the identifier of [uuidv4()].
    - [socket.emit], [socket.to(room).emit] and [io.to(room).emit] are
      recorded as a list of outbound events with their target; delivery,
      and the adapter rooms kept by [socket.join] / [socket.leave], belong
      to Socket.IO and are never read by the handlers.
    - Pending [setTimeout] callbacks are a queue of room identifiers: all
      are scheduled with the same delay, so they fire in scheduling order. *)

From Stdlib Require Import NArith List String Ascii Lia.
From stdpp Require Import gmap list fin_maps fin_sets.

Local Set Warnings "-clear-no-such-hyp".
Local Open Scope nat_scope.

(** ** JS strings *)

Abbreviation jsstring := (list N).

Definition of_ascii (s : string) : jsstring :=
  map N_of_ascii (list_ascii_of_string s).

(** [WhiteSpace] and [LineTerminator] code units, the ones
    [String.prototype.trim] strips. *)
Definition is_ws (c : N) : bool :=
  ((9 <=? c) && (c <=? 13))%N
  || (c =? 32)%N || (c =? 160)%N || (c =? 5760)%N
  || ((8192 <=? c) && (c <=? 8202))%N
  || (c =? 8232)%N || (c =? 8233)%N || (c =? 8239)%N
  || (c =? 8287)%N || (c =? 12288)%N || (c =? 65279)%N.

Fixpoint trimStart (s : jsstring) : jsstring :=
  match s with
  | [] => []
  | c :: s' => if is_ws c then trimStart s' else s
  end.

Definition trimEnd (s : jsstring) : jsstring := rev (trimStart (rev s)).

Definition trim (s : jsstring) : jsstring := trimEnd (trimStart s).

(** [s.substring(a, b)]: both indices are clamped to the length and
    swapped when out of order. *)
Definition substring (s : jsstring) (a b : nat) : jsstring :=
  let a' := Nat.min a (length s) in
  let b' := Nat.min b (length s) in
  let from := Nat.min a' b' in
  let to := Nat.max a' b' in
  take (to - from) (drop from s).

(** Truthiness of a value that is a string or [null]/[undefined]. *)
Definition truthy (v : option jsstring) : bool :=
  match v with
  | Some (_ :: _) => true
  | _ => false
  end.

(** A string-or-null interpolated in a template literal. *)
Definition interpolate (v : option jsstring) : jsstring :=
  match v with
  | Some s => s
  | None => of_ascii "null"
  end.

(** ** Data *)

Record Message := mkMessage {
  id : jsstring;
  sender : option jsstring;
  senderId : jsstring;
  message : jsstring;
  timestamp : jsstring
}.

Record Room := mkRoom {
  users : gset jsstring;
  messages : list Message;
  createdAt : N
}.

Record UserData := mkUserData {
  username : option jsstring;
  currentRoom : option jsstring
}.

Definition set_users (r : Room) (u : gset jsstring) : Room :=
  {| users := u; messages := messages r; createdAt := createdAt r |}.

Definition set_messages (r : Room) (ms : list Message) : Room :=
  {| users := users r; messages := ms; createdAt := createdAt r |}.

(** Outbound events. *)
Inductive Target :=
| ToSocket (sid : jsstring)
| ToRoomExcept (roomId sid : jsstring)
| ToRoom (roomId : jsstring).

Inductive Payload :=
| user_joined (name : option jsstring) (userCount : nat)
| user_activity (type message : jsstring) (userCount : nat)
| receive_message (m : Message).

Definition Emit : Type := Target * Payload.

(** Inbound payloads.  [join_room] takes either a bare string (the room
    identifier) or an object with [roomId] and an optional [username].
    [JoinData] and [SendData] are the payloads of that documented shape: a
    room identifier that is a string, a username and a message that are
    strings or absent.  Payloads of another shape (none at all, an object
    without a string [roomId], a username or a message that is neither a
    string nor absent) are not values of these types; for [send_message]
    they are those of [SendPayload] below. *)
Inductive JoinData :=
| JoinString (roomId : jsstring)
| JoinObject (roomId : jsstring) (username : option jsstring).

Record SendData := mkSendData { sd_message : option jsstring }.

(** ** The room store *)

Definition getOrCreateRoom (roomId : jsstring) (now : N)
    (rooms : gmap jsstring Room) : gmap jsstring Room * Room :=
  match rooms !! roomId with
  | Some r => (rooms, r)
  | None =>
      let r := {| users := ∅; messages := []; createdAt := now |} in
      (<[roomId := r]> rooms, r)
  end.

(** [rnd] is the text of [Math.random().toString(36)]. *)
Definition generateUsername (rnd : jsstring) : jsstring :=
  let suffix := substring rnd 2 6 in
  of_ascii "Anon-" ++ suffix.

(** ** Handlers

    Each handler is the closure body over one socket: [sid] is
    [socket.id], [ud] is [socket.userData]. *)

Definition join_roomId (data : JoinData) : jsstring :=
  match data with
  | JoinString s => s
  | JoinObject r _ => r
  end.

Definition join_customUsername (data : JoinData) : option jsstring :=
  match data with
  | JoinString _ => None
  | JoinObject _ u => u
  end.

Definition resolveUsername (customUsername : option jsstring)
    (rnd : jsstring) : jsstring :=
  match customUsername with
  | Some cu =>
      if truthy (Some cu) && truthy (Some (trim cu))
      then substring (trim cu) 0 20
      else generateUsername rnd
  | None => generateUsername rnd
  end.

(** Lines 114-121: leave the previous room, if any. *)
Definition leavePrevious (sid : jsstring) (ud : UserData)
    (rooms : gmap jsstring Room) : gmap jsstring Room :=
  match currentRoom ud with
  | Some cur =>
      if truthy (Some cur) then
        match rooms !! cur with
        | Some prevRoom =>
            <[cur := set_users prevRoom (users prevRoom ∖ {[sid]})]> rooms
        | None => rooms
        end
      else rooms
  | None => rooms
  end.

Definition join_room (sid : jsstring) (data : JoinData)
    (rnd : jsstring) (now : N)
    (ud : UserData) (rooms : gmap jsstring Room)
  : UserData * gmap jsstring Room * list Emit :=
  let roomId := join_roomId data in
  let customUsername := join_customUsername data in
  let name := resolveUsername customUsername rnd in
  let rooms1 := leavePrevious sid ud rooms in
  let ud' := {| username := Some name; currentRoom := Some roomId |} in
  let '(rooms2, room) := getOrCreateRoom roomId now rooms1 in
  let room' := set_users room ({[sid]} ∪ users room) in
  let rooms3 := <[roomId := room']> rooms2 in
  (ud', rooms3,
   [ (ToSocket sid, user_joined (username ud') (size (users room')));
     (ToRoomExcept roomId sid,
      user_activity (of_ascii "join")
        (interpolate (username ud') ++ of_ascii " joined the chat")
        (size (users room'))) ]).

(** [messages.push(m)] followed by the bound of lines 174-176. *)
Definition pushBounded (ms : list Message) (m : Message) : list Message :=
  let ms' := ms ++ [m] in
  if 100 <? length ms' then tail ms' else ms'.

Definition send_message (sid : jsstring) (data : SendData)
    (uuid ts : jsstring)
    (ud : UserData) (rooms : gmap jsstring Room)
  : gmap jsstring Room * list Emit :=
  match currentRoom ud, sd_message data with
  | Some roomId, Some msg =>
      if negb (truthy (Some roomId)) || negb (truthy (Some (trim msg)))
      then (rooms, [])
      else
        match rooms !! roomId with
        | None => (rooms, [])
        | Some room =>
            let messageObj :=
              {| id := uuid; sender := username ud; senderId := sid;
                 message := trim msg; timestamp := ts |} in
            let room' := set_messages room (pushBounded (messages room) messageObj) in
            (<[roomId := room']> rooms,
             [ (ToRoom roomId, receive_message messageObj) ])
        end
  | _, _ => (rooms, [])
  end.

(** The callback handed to [setTimeout] in the disconnect handler. *)
Definition reap (roomId : jsstring) (rooms : gmap jsstring Room)
  : gmap jsstring Room :=
  match rooms !! roomId with
  | Some currentRoom =>
      if decide (size (users currentRoom) = 0) then delete roomId rooms
      else rooms
  | None => rooms
  end.

(** The disconnect handler: the new store, the emitted events and the
    room identifiers for which a reap was scheduled. *)
Definition disconnect (sid : jsstring)
    (ud : UserData) (rooms : gmap jsstring Room)
  : gmap jsstring Room * list Emit * list jsstring :=
  match currentRoom ud with
  | Some roomId =>
      if truthy (Some roomId) then
        match rooms !! roomId with
        | Some room =>
            let room' := set_users room (users room ∖ {[sid]}) in
            let rooms' := <[roomId := room']> rooms in
            (rooms',
             [ (ToRoomExcept roomId sid,
                user_activity (of_ascii "leave")
                  (interpolate (username ud) ++ of_ascii " left the chat")
                  (size (users room'))) ],
             if decide (size (users room') = 0) then [roomId] else [])
        | None => (rooms, [], [])
        end
      else (rooms, [], [])
  | None => (rooms, [], [])
  end.

(** ** The server as a state machine *)

Record Server := mkServer {
  rooms : gmap jsstring Room;
  sockets : gmap jsstring UserData;
  timers : list jsstring
}.

Definition initial : Server :=
  {| rooms := ∅; sockets := ∅; timers := [] |}.

Inductive Event :=
| Connect (sid : jsstring)
| JoinRoom (sid : jsstring) (data : JoinData) (rnd : jsstring) (now : N)
| SendMessage (sid : jsstring) (data : SendData) (uuid ts : jsstring)
| Disconnect (sid : jsstring)
| ReapFires.

(** One event of the event loop.  Handlers only exist for connected
    sockets; the oldest pending timer is the one that fires. *)
Definition step (st : Server) (e : Event) : Server * list Emit :=
  match e with
  | Connect sid =>
      match sockets st !! sid with
      | Some _ => (st, [])
      | None =>
          ({| rooms := rooms st;
              sockets := <[sid := {| username := None; currentRoom := None |}]> (sockets st);
              timers := timers st |}, [])
      end
  | JoinRoom sid data rnd now =>
      match sockets st !! sid with
      | Some ud =>
          let '(ud', rooms', out) := join_room sid data rnd now ud (rooms st) in
          ({| rooms := rooms'; sockets := <[sid := ud']> (sockets st);
              timers := timers st |}, out)
      | None => (st, [])
      end
  | SendMessage sid data uuid ts =>
      match sockets st !! sid with
      | Some ud =>
          let '(rooms', out) := send_message sid data uuid ts ud (rooms st) in
          ({| rooms := rooms'; sockets := sockets st; timers := timers st |}, out)
      | None => (st, [])
      end
  | Disconnect sid =>
      match sockets st !! sid with
      | Some ud =>
          let '(rooms', out, sched) := disconnect sid ud (rooms st) in
          ({| rooms := rooms'; sockets := delete sid (sockets st);
              timers := timers st ++ sched |}, out)
      | None => (st, [])
      end
  | ReapFires =>
      match timers st with
      | roomId :: rest =>
          ({| rooms := reap roomId (rooms st); sockets := sockets st;
              timers := rest |}, [])
      | [] => (st, [])
      end
  end.

Fixpoint run (st : Server) (es : list Event) : Server :=
  match es with
  | [] => st
  | e :: es' => run (fst (step st e)) es'
  end.

(** Rooms whose membership set holds [sid]. *)
Definition roomsOf (sid : jsstring) (rooms : gmap jsstring Room)
  : gset jsstring :=
  dom (filter (λ kv, sid ∈ users kv.2) rooms).

(** Text of [Number.prototype.toString(36)] for a number in [0, 1):
    ["0"], or ["0."] followed by at least one digit among [0-9a-z]. *)
Definition is_lower_alnum (c : N) : bool :=
  ((48 <=? c) && (c <=? 57))%N || ((97 <=? c) && (c <=? 122))%N.

Definition is_radix36_text (s : jsstring) : bool :=
  match s with
  | [c0] => (c0 =? 48)%N
  | c0 :: c1 :: d :: ds =>
      (c0 =? 48)%N && (c1 =? 46)%N && forallb is_lower_alnum (d :: ds)
  | _ => false
  end.

(** The format the anonymous handle is said to have: ["Anon-"] followed by
    exactly four lowercase-alphanumeric code units. *)
Definition is_anonymous_handle (name : jsstring) : bool :=
  bool_decide (take 5 name = of_ascii "Anon-")
  && (length (drop 5 name) =? 4)
  && forallb is_lower_alnum (drop 5 name).

(** A [Disconnect] of a socket whose current room is [R]. *)
Definition leaves (R : jsstring) (st : Server) (e : Event) : bool :=
  match e with
  | Disconnect sid =>
      match sockets st !! sid with
      | Some ud => bool_decide (currentRoom ud = Some R)
      | None => false
      end
  | _ => false
  end.

(** No event of [es], run from [st], is a disconnect out of room [R]. *)
Fixpoint quiet (R : jsstring) (st : Server) (es : list Event) : bool :=
  match es with
  | [] => true
  | e :: es' => negb (leaves R st e) && quiet R (fst (step st e)) es'
  end.

(** A room that is stored and has no reap pending. *)
Definition kept (R : jsstring) (st : Server) : Prop :=
  is_Some (rooms st !! R) ∧ R ∉ timers st.

Definition join_target_nonempty (e : Event) : bool :=
  match e with
  | JoinRoom _ data _ _ => truthy (Some (join_roomId data))
  | _ => true
  end.

(** Every stored membership is backed by the member's session. *)
Definition membership_inv (st : Server) : Prop :=
  ∀ sid R r, rooms st !! R = Some r → sid ∈ users r →
    ∃ ud, sockets st !! sid = Some ud ∧ currentRoom ud = Some R
          ∧ truthy (Some R) = true.

Definition messages_bounded (rooms : gmap jsstring Room) : Prop :=
  ∀ R r, rooms !! R = Some r → length (messages r) ≤ 100.

(** Concrete identifiers used in the examples. *)
Definition sA : jsstring := of_ascii "A".
Definition sB : jsstring := of_ascii "B".
Definition lobby : jsstring := of_ascii "lobby".
Definition den : jsstring := of_ascii "den".
Definition rnd0 : jsstring := of_ascii "0.7x3k9".
Definition fresh : UserData := {| username := None; currentRoom := None |}.

(** [sA] joins the lobby and sends [n] messages, numbered in their text. *)
Definition chatter (n : nat) : list Event :=
  [Connect sA; JoinRoom sA (JoinString lobby) rnd0 0%N]
  ++ map (λ i, SendMessage sA {| sd_message := Some [N.of_nat i; 33%N] |}
                 (of_ascii "id") (of_ascii "ts"))
         (seq 48 n).

(** ** REST endpoints

    [GET /health] and [GET /room/:roomId] read the store and never write
    it.  A response is its status code and its JSON body. *)

Record HealthBody := mkHealthBody {
  h_status : jsstring;
  h_activeRooms : nat;
  h_timestamp : jsstring
}.

Record RoomInfoBody := mkRoomInfoBody {
  ri_userCount : nat;
  ri_messageCount : nat;
  ri_createdAt : N
}.

(** [now] is the text of [new Date().toISOString()]. *)
Definition getHealth (rooms : gmap jsstring Room) (now : jsstring)
  : nat * HealthBody :=
  (200, {| h_status := of_ascii "ok"; h_activeRooms := size rooms;
           h_timestamp := now |}).

Definition getRoom (rooms : gmap jsstring Room) (roomId : jsstring)
  : nat * (jsstring + RoomInfoBody) :=
  match rooms !! roomId with
  | None => (404, inl (of_ascii "Room not found"))
  | Some room =>
      (200, inr {| ri_userCount := size (users room);
                   ri_messageCount := length (messages room);
                   ri_createdAt := createdAt room |})
  end.

(** The message object built by an accepted [send_message]. *)
Definition messageObj (sid : jsstring) (ud : UserData)
    (text uuid ts : jsstring) : Message :=
  {| id := uuid; sender := username ud; senderId := sid;
     message := trim text; timestamp := ts |}.

(** Stored texts are trimmed and not empty. *)
Definition clean (m : Message) : Prop :=
  message m ≠ [] ∧ trim (message m) = message m.

Definition messages_clean (rooms : gmap jsstring Room) : Prop :=
  ∀ R r m, rooms !! R = Some r → m ∈ messages r → clean m.

(** A display name, once set, has between 1 and 20 code units. *)
Definition name_ok (v : option jsstring) : Prop :=
  ∀ name, v = Some name → 1 ≤ length name ≤ 20.

(** Sessions in a room carry a name, and every stored sender is one. *)
Definition names_inv (st : Server) : Prop :=
  (∀ sid ud, sockets st !! sid = Some ud →
     name_ok (username ud)
     ∧ (is_Some (currentRoom ud) → is_Some (username ud)))
  ∧ (∀ R r m, rooms st !! R = Some r → m ∈ messages r →
       is_Some (sender m) ∧ name_ok (sender m)).

(** The current room of every session is stored and lists the socket. *)
Definition current_room_inv (st : Server) : Prop :=
  ∀ sid ud R, sockets st !! sid = Some ud → currentRoom ud = Some R →
    ∃ r, rooms st !! R = Some r ∧ sid ∈ users r.

(** No reap is pending for the empty room identifier. *)
Definition empty_id_kept (st : Server) : Prop :=
  is_Some (rooms st !! []) ∧ [] ∉ timers st.

(** ** Payloads of any shape

    Socket.IO hands a handler whatever the client sent.  For
    [send_message], [SendPayload] covers every shape of payload, and an
    [Outcome] says whether the handler returns or throws.  No handler
    catches anything, so an exception leaves the handler uncaught. *)

Inductive Outcome (A : Type) : Type :=
| Returns (a : A)
| Throws (error : jsstring).

Arguments Returns {A} a.
Arguments Throws {A} error.

Definition TypeError : jsstring := of_ascii "TypeError".

(** The [message] property read off a payload: [undefined] or [null]
    (also when the payload is a primitive or has no such property), a
    string, or any other value (number, boolean, object, array), which has
    no [trim] method. *)
Inductive MessageField :=
| MessageNullish
| MessageString (text : jsstring)
| MessageOther.

(** The payload itself: [undefined] or [null] (an event emitted without
    payload), or any other value, of which only [message] is read. *)
Inductive SendPayload :=
| PayloadNullish
| PayloadWith (message : MessageField).

Definition payload_of (data : SendData) : SendPayload :=
  match sd_message data with
  | Some text => PayloadWith (MessageString text)
  | None => PayloadWith MessageNullish
  end.

(** The [send_message] handler on any payload.  Line 151 destructures the
    payload, which throws on [undefined] and [null]; in line 154
    [!roomId] is evaluated first and [message?.trim()] only when the room
    is truthy, where it throws on a value without [trim]. *)
Definition send_message_handler (sid : jsstring) (data : SendPayload)
    (uuid ts : jsstring)
    (ud : UserData) (rooms : gmap jsstring Room)
  : Outcome (gmap jsstring Room * list Emit) :=
  match data with
  | PayloadNullish => Throws TypeError
  | PayloadWith message =>
      match currentRoom ud with
      | None => Returns (rooms, [])
      | Some roomId =>
          if negb (truthy (Some roomId)) then Returns (rooms, [])
          else
            match message with
            | MessageNullish => Returns (rooms, [])
            | MessageOther => Throws TypeError
            | MessageString text =>
                if negb (truthy (Some (trim text))) then Returns (rooms, [])
                else
                  match rooms !! roomId with
                  | None => Returns (rooms, [])
                  | Some room =>
                      let m := messageObj sid ud text uuid ts in
                      let room' :=
                        set_messages room (pushBounded (messages room) m) in
                      Returns (<[roomId := room']> rooms,
                               [ (ToRoom roomId, receive_message m) ])
                  end
            end
      end
  end.

(** ** Routing of [GET /room/:roomId]

    The route matches a path [/room/<segment>] whose segment is not empty
    and hands the handler the decoded segment as [req.params.roomId].  A
    request for [/room/] matches no route: the handler does not run and
    Express answers with its own 404 page. *)
Inductive HttpResponse :=
| ExpressNotFound
| JsonResponse (code : nat) (body : jsstring + RoomInfoBody).

Definition routeRoom (rooms : gmap jsstring Room) (segment : jsstring)
  : HttpResponse :=
  match segment with
  | [] => ExpressNotFound
  | _ :: _ => JsonResponse (getRoom rooms segment).1 (getRoom rooms segment).2
  end.

Definition statusOf (r : HttpResponse) : nat :=
  match r with
  | ExpressNotFound => 404
  | JsonResponse code _ => code
  end.

(** * Properties *)

(** ** Strings *)

Lemma substring_from_0 (s : jsstring) (n : nat) : substring s 0 n = take n s.
Proof.
  unfold substring. cbn [Nat.min]. rewrite Nat.max_0_l, Nat.sub_0_r.
  cbn [drop]. destruct (Nat.le_gt_cases n (length s)) as [Hle | Hgt].
  - by rewrite Nat.min_l.
  - rewrite Nat.min_r by lia. rewrite (take_ge s n) by lia.
    by rewrite take_ge.
Qed.

Lemma truthy_Some (s : jsstring) : truthy (Some s) = true ↔ s ≠ [].
Proof. destruct s; simpl; split; congruence. Qed.

Lemma trim_truthy (s : jsstring) :
  truthy (Some (trim s)) = true → truthy (Some s) = true.
Proof.
  rewrite !truthy_Some. intros H ->. by apply H.
Qed.

(** ** Store lemmas *)

Lemma leavePrevious_is_Some (sid : jsstring) (ud : UserData)
    (rs : gmap jsstring Room) (R : jsstring) :
  is_Some (leavePrevious sid ud rs !! R) ↔ is_Some (rs !! R).
Proof.
  unfold leavePrevious.
  destruct (currentRoom ud) as [cur|]; [|done].
  destruct (truthy (Some cur)); [|done].
  destruct (rs !! cur) eqn:Hc; [|done].
  destruct (decide (cur = R)) as [->|Hne].
  - rewrite lookup_insert_eq, Hc. split; intros _; by eexists.
  - by rewrite lookup_insert_ne.
Qed.

Lemma leavePrevious_users (sid : jsstring) (ud : UserData)
    (rs : gmap jsstring Room) (R : jsstring) (r : Room) :
  leavePrevious sid ud rs !! R = Some r →
  ∃ r0, rs !! R = Some r0 ∧ messages r = messages r0
        ∧ createdAt r = createdAt r0
        ∧ (users r = users r0 ∨ users r = users r0 ∖ {[sid]}).
Proof.
  unfold leavePrevious.
  destruct (currentRoom ud) as [cur|]; [|by eauto 10].
  destruct (truthy (Some cur)); [|by eauto 10].
  destruct (rs !! cur) as [p|] eqn:Hc; [|by eauto 10].
  destruct (decide (cur = R)) as [->|Hne].
  - rewrite lookup_insert_eq. intros [= <-]. exists p. simpl. eauto 10.
  - rewrite lookup_insert_ne by done. eauto 10.
Qed.

Lemma join_room_eq (sid : jsstring) (data : JoinData) (rnd : jsstring)
    (now : N) (ud : UserData) (rs : gmap jsstring Room) :
  let R := join_roomId data in
  let name := resolveUsername (join_customUsername data) rnd in
  let rs1 := leavePrevious sid ud rs in
  let room :=
    match rs1 !! R with
    | Some r => r
    | None => {| users := ∅; messages := []; createdAt := now |}
    end in
  let room' := set_users room ({[sid]} ∪ users room) in
  join_room sid data rnd now ud rs =
    ({| username := Some name; currentRoom := Some R |},
     <[R := room']> rs1,
     [ (ToSocket sid, user_joined (Some name) (size (users room')));
       (ToRoomExcept R sid,
        user_activity (of_ascii "join")
          (name ++ of_ascii " joined the chat") (size (users room'))) ]).
Proof.
  intros R name rs1 room room'. unfold join_room, getOrCreateRoom.
  fold R name rs1. subst room' room.
  destruct (rs1 !! R) as [r|] eqn:HR; cbn [username interpolate].
  - done.
  - by rewrite insert_insert_eq.
Qed.

(** ** send_message: ignored events *)

(** For a payload of the documented shape, a [send_message] event is a
    complete no-op when the connection has no current room, or the message
    text is absent or empty after trimming, or the current room is absent
    from the store: the handler returns the store it was given and emits
    nothing, and the whole server state (rooms, sessions, pending reaps)
    is unchanged. *)
Theorem send_message_ignored (st : Server) (sid : jsstring) (ud : UserData)
    (data : SendData) (uuid ts : jsstring) :
  sockets st !! sid = Some ud →
  (currentRoom ud = None
   ∨ sd_message data = None
   ∨ (∃ text, sd_message data = Some text ∧ trim text = [])
   ∨ (∃ R, currentRoom ud = Some R ∧ rooms st !! R = None)) →
  send_message sid data uuid ts ud (rooms st) = (rooms st, [])
  ∧ step st (SendMessage sid data uuid ts) = (st, []).
Proof.
  intros Hsock Hcase.
  assert (Hh : send_message sid data uuid ts ud (rooms st) = (rooms st, [])).
  { unfold send_message.
    destruct Hcase as [Hnone | [Hnone | [(text & Htext & Hempty) | (R & HR & Habs)]]].
    - by rewrite Hnone.
    - rewrite Hnone. by destruct (currentRoom ud).
    - rewrite Htext, Hempty. destruct (currentRoom ud) as [R|]; [|done].
      cbn [truthy negb]. by rewrite orb_true_r.
    - rewrite HR, Habs. destruct (sd_message data) as [text|]; [|done].
      by destruct (negb _ || negb _). }
  split; [exact Hh|].
  cbn [step]. rewrite Hsock, Hh. by destruct st.
Qed.

Lemma send_message_ignored_witness :
  let st := run initial [Connect sA; JoinRoom sA (JoinString lobby) rnd0 7%N] in
  let ud := {| username := Some (of_ascii "Anon-7x3k");
               currentRoom := Some lobby |} in
  let data := {| sd_message := Some (of_ascii "  ") |} in
  sockets st !! sA = Some ud
  ∧ trim (of_ascii "  ") = []
  ∧ step st (SendMessage sA data (of_ascii "u1") (of_ascii "t1")) = (st, []).
Proof.
  intros st ud data.
  assert (Hs : sockets st !! sA = Some ud) by (vm_compute; reflexivity).
  assert (Ht : trim (of_ascii "  ") = []) by (vm_compute; reflexivity).
  split; [exact Hs|]. split; [exact Ht|].
  apply (send_message_ignored st sA ud data (of_ascii "u1") (of_ascii "t1") Hs).
  right; right; left. exists (of_ascii "  "). split; [reflexivity | exact Ht].
Defined.

(** ** send_message: payloads of any shape *)

Lemma send_message_handler_typed (sid : jsstring) (data : SendData)
    (uuid ts : jsstring) (ud : UserData) (rs : gmap jsstring Room) :
  send_message_handler sid (payload_of data) uuid ts ud rs
  = Returns (send_message sid data uuid ts ud rs).
Proof.
  unfold send_message_handler, send_message, payload_of.
  destruct (sd_message data) as [text|], (currentRoom ud) as [R|]; try done.
  - destruct (truthy (Some R)); cbn [negb orb]; [|done].
    destruct (truthy (Some (trim text))); cbn [negb]; [|done].
    by destruct (rs !! R).
  - by destruct (negb (truthy (Some R))).
Qed.

(** C4 fails on a [send_message] event that carries no payload.  Whatever
    the session and the store, so also for a connection without current
    room, the handler throws a [TypeError] while destructuring the payload,
    before any of its guards: the event is not a silent no-op.  A message
    that is neither a string nor absent is ignored only while the
    connection has no room with a truthy identifier, and throws
    otherwise. *)
Theorem send_message_without_payload_throws (sid uuid ts : jsstring)
    (ud : UserData) (rs : gmap jsstring Room) :
  send_message_handler sid PayloadNullish uuid ts ud rs = Throws TypeError
  ∧ send_message_handler sid PayloadNullish uuid ts fresh rs ≠ Returns (rs, [])
  ∧ send_message_handler sid (PayloadWith MessageOther) uuid ts ud rs
    = if truthy (currentRoom ud) then Throws TypeError else Returns (rs, []).
Proof.
  split; [reflexivity|]. split; [discriminate|].
  unfold send_message_handler.
  destruct (currentRoom ud) as [[|c R]|]; reflexivity.
Qed.

(** ** join_room: emitted events *)

(** C5. Every [join_room] event emits exactly two events: [user_joined]
    to the joining socket alone, with the resolved display name and the
    size of the room's membership set as it is in the store after the
    join; then [user_activity] of type "join", message
    "<name> joined the chat" and the same count, to the room except the
    joining socket. *)
Theorem join_room_emits (sid : jsstring) (data : JoinData) (rnd : jsstring)
    (now : N) (ud : UserData) (rs : gmap jsstring Room) :
  ∃ (name : jsstring) (room' : Room),
    name = resolveUsername (join_customUsername data) rnd
    ∧ username (join_room sid data rnd now ud rs).1.1 = Some name
    ∧ (join_room sid data rnd now ud rs).1.2 !! join_roomId data = Some room'
    ∧ sid ∈ users room'
    ∧ (join_room sid data rnd now ud rs).2 =
        [ (ToSocket sid, user_joined (Some name) (size (users room')));
          (ToRoomExcept (join_roomId data) sid,
           user_activity (of_ascii "join")
             (name ++ of_ascii " joined the chat") (size (users room'))) ].
Proof.
  rewrite join_room_eq. cbn [fst snd username].
  eexists _, _. split; [reflexivity|]. split; [reflexivity|].
  split; [apply lookup_insert_eq|]. split; [|reflexivity].
  cbn [set_users users]. set_solver.
Qed.

(** ** join_room: custom display names *)

(** C7. When the custom username is non-empty after trimming, the display
    name stored on the session is the trimmed username cut to its first
    20 code units, so it is never longer than 20. *)
Theorem join_room_custom_username (st : Server) (sid roomId cu rnd : jsstring)
    (now : N) :
  is_Some (sockets st !! sid) →
  truthy (Some (trim cu)) = true →
  ∃ ud', sockets (step st (JoinRoom sid (JoinObject roomId (Some cu)) rnd now)).1
           !! sid = Some ud'
    ∧ username ud' = Some (take 20 (trim cu))
    ∧ ∀ name, username ud' = Some name → length name ≤ 20.
Proof.
  intros [ud Hud] Htrim. cbn [step]. rewrite Hud, join_room_eq.
  cbn [fst rooms sockets join_customUsername resolveUsername].
  rewrite lookup_insert_eq. eexists. split; [reflexivity|].
  rewrite (trim_truthy _ Htrim), Htrim. cbn [andb username].
  rewrite substring_from_0. split; [reflexivity|].
  intros name [= <-]. rewrite length_take. lia.
Qed.

Lemma join_room_custom_username_witness :
  let st := run initial [Connect sA] in
  let cu := of_ascii "  Bartholomew the Magnificent  " in
  is_Some (sockets st !! sA)
  ∧ truthy (Some (trim cu)) = true
  ∧ ∃ ud', sockets (step st (JoinRoom sA (JoinObject lobby (Some cu)) rnd0 0%N)).1
             !! sA = Some ud'
      ∧ username ud' = Some (take 20 (trim cu))
      ∧ ∀ name, username ud' = Some name → length name ≤ 20.
Proof.
  intros st cu.
  assert (Hs : is_Some (sockets st !! sA)) by (vm_compute; eauto).
  assert (Ht : truthy (Some (trim cu)) = true) by (vm_compute; reflexivity).
  split; [exact Hs|]. split; [exact Ht|].
  exact (join_room_custom_username st sA lobby cu rnd0 0%N Hs Ht).
Defined.

(** ** disconnect: room already gone *)

(** C10. When the room recorded on the session is absent from the store,
    the disconnect handler leaves the store as it was, emits nothing and
    schedules no reap; the event only removes the session. *)
Theorem disconnect_absent_room (st : Server) (sid : jsstring) (ud : UserData)
    (R : jsstring) :
  sockets st !! sid = Some ud →
  currentRoom ud = Some R →
  rooms st !! R = None →
  disconnect sid ud (rooms st) = (rooms st, [], [])
  ∧ step st (Disconnect sid) =
      ({| rooms := rooms st; sockets := delete sid (sockets st);
          timers := timers st |}, []).
Proof.
  intros Hsock Hcur Habs.
  assert (Hh : disconnect sid ud (rooms st) = (rooms st, [], [])).
  { unfold disconnect. rewrite Hcur, Habs. by destruct (truthy (Some R)). }
  split; [exact Hh|].
  cbn [step]. rewrite Hsock, Hh. by rewrite app_nil_r.
Qed.

Lemma disconnect_absent_room_witness :
  let ud := {| username := Some (of_ascii "Bob"); currentRoom := Some lobby |} in
  let st := {| rooms := ∅; sockets := {[ sB := ud ]}; timers := [den] |} in
  sockets st !! sB = Some ud
  ∧ currentRoom ud = Some lobby
  ∧ rooms st !! lobby = None
  ∧ step st (Disconnect sB) =
      ({| rooms := ∅; sockets := delete sB (sockets st); timers := [den] |}, []).
Proof.
  intros ud st.
  assert (H1 : sockets st !! sB = Some ud) by (vm_compute; reflexivity).
  assert (H2 : currentRoom ud = Some lobby) by reflexivity.
  assert (H3 : rooms st !! lobby = None) by (vm_compute; reflexivity).
  split; [exact H1|]. split; [exact H2|]. split; [exact H3|].
  exact (proj2 (disconnect_absent_room st sB ud lobby H1 H2 H3)).
Defined.

(** ** Invariants of the event loop *)

Lemma run_invariant (P : Server → Prop) :
  (∀ st e, P st → P (step st e).1) →
  ∀ es st, P st → P (run st es).
Proof.
  intros Hstep es. induction es as [|e es IH]; intros st HP; [done|].
  cbn [run]. by apply IH, Hstep.
Qed.

Lemma run_app (st : Server) (es1 es2 : list Event) :
  run st (es1 ++ es2) = run (run st es1) es2.
Proof.
  revert st. induction es1 as [|e es1 IH]; intros st; [done|].
  cbn [run app]. apply IH.
Qed.

(** ** The message bound *)

Lemma pushBounded_length (ms : list Message) (m : Message) :
  length ms ≤ 100 → length (pushBounded ms m) ≤ 100.
Proof.
  intros Hle. unfold pushBounded.
  destruct (100 <? length (ms ++ [m])) eqn:Hlt.
  - destruct ms as [|m0 ms]; cbn [app tail length] in *; [lia|].
    rewrite length_app. cbn [length]. lia.
  - by apply Nat.ltb_ge in Hlt.
Qed.

Lemma pushBounded_below (ms : list Message) (m : Message) :
  length ms < 100 → pushBounded ms m = ms ++ [m].
Proof.
  intros Hlt. unfold pushBounded.
  destruct (100 <? length (ms ++ [m])) eqn:Hc; [|done].
  apply Nat.ltb_lt in Hc. rewrite length_app in Hc. cbn [length] in Hc. lia.
Qed.

Lemma pushBounded_full (ms : list Message) (m : Message) :
  length ms = 100 →
  ∃ oldest rest, ms = oldest :: rest ∧ pushBounded ms m = rest ++ [m].
Proof.
  intros Hlen. destruct ms as [|oldest rest]; [discriminate|].
  exists oldest, rest. split; [done|]. unfold pushBounded.
  destruct (100 <? length ((oldest :: rest) ++ [m])) eqn:Hc; [done|].
  apply Nat.ltb_ge in Hc. rewrite length_app, Hlen in Hc. cbn [length] in Hc. lia.
Qed.

Lemma join_room_messages_bounded (sid : jsstring) (data : JoinData)
    (rnd : jsstring) (now : N) (ud : UserData) (rs : gmap jsstring Room) :
  messages_bounded rs →
  messages_bounded (join_room sid data rnd now ud rs).1.2.
Proof.
  intros Hb R r. rewrite join_room_eq. cbn [fst snd].
  destruct (decide (join_roomId data = R)) as [->|Hne].
  - rewrite lookup_insert_eq. intros [= <-]. cbn [set_users messages].
    destruct (leavePrevious sid ud rs !! R) as [r0|] eqn:H0; [|cbn; lia].
    apply leavePrevious_users in H0 as (r1 & H1 & -> & _). by apply (Hb R).
  - rewrite lookup_insert_ne by done. intros H0.
    apply leavePrevious_users in H0 as (r1 & H1 & -> & _). by apply (Hb R).
Qed.

Lemma send_message_messages_bounded (sid : jsstring) (data : SendData)
    (uuid ts : jsstring) (ud : UserData) (rs : gmap jsstring Room) :
  messages_bounded rs →
  messages_bounded (send_message sid data uuid ts ud rs).1.
Proof.
  intros Hb. unfold send_message.
  destruct (currentRoom ud) as [cur|]; [|done].
  destruct (sd_message data) as [msg|]; [|done].
  destruct (negb _ || negb _); [done|].
  destruct (rs !! cur) as [room|] eqn:Hc; [|done].
  cbn [fst]. intros R r.
  destruct (decide (cur = R)) as [->|Hne].
  - rewrite lookup_insert_eq. intros [= <-]. cbn [set_messages messages].
    apply pushBounded_length. by apply (Hb R).
  - rewrite lookup_insert_ne by done. apply Hb.
Qed.

Lemma disconnect_messages_bounded (sid : jsstring) (ud : UserData)
    (rs : gmap jsstring Room) :
  messages_bounded rs → messages_bounded (disconnect sid ud rs).1.1.
Proof.
  intros Hb. unfold disconnect.
  destruct (currentRoom ud) as [cur|]; [|done].
  destruct (truthy (Some cur)); [|done].
  destruct (rs !! cur) as [room|] eqn:Hc; [|done].
  cbn [fst]. intros R r.
  destruct (decide (cur = R)) as [->|Hne].
  - rewrite lookup_insert_eq. intros [= <-]. cbn [set_users messages].
    by apply (Hb R room).
  - rewrite lookup_insert_ne by done. apply Hb.
Qed.

Lemma reap_lookup_Some (roomId : jsstring) (rs : gmap jsstring Room)
    (R : jsstring) (r : Room) :
  reap roomId rs !! R = Some r → rs !! R = Some r.
Proof.
  unfold reap. destruct (rs !! roomId) as [c|]; [|done].
  destruct (decide (size (users c) = 0)); [|done].
  rewrite lookup_delete_Some. by intros [_ ?].
Qed.

Lemma step_messages_bounded (st : Server) (e : Event) :
  messages_bounded (rooms st) → messages_bounded (rooms (step st e).1).
Proof.
  intros Hb. destruct e as [sid|sid data rnd now|sid data uuid ts|sid|]; cbn [step].
  - by destruct (sockets st !! sid).
  - destruct (sockets st !! sid) as [ud|]; [|done].
    pose proof (join_room_messages_bounded sid data rnd now ud _ Hb) as H.
    by destruct (join_room sid data rnd now ud (rooms st)) as [[ud' rs'] out].
  - destruct (sockets st !! sid) as [ud|]; [|done].
    pose proof (send_message_messages_bounded sid data uuid ts ud _ Hb) as H.
    by destruct (send_message sid data uuid ts ud (rooms st)) as [rs' out].
  - destruct (sockets st !! sid) as [ud|]; [|done].
    pose proof (disconnect_messages_bounded sid ud _ Hb) as H.
    by destruct (disconnect sid ud (rooms st)) as [[rs' out] sched].
  - destruct (timers st) as [|roomId rest]; [done|].
    cbn [fst rooms]. intros R r HR. apply (Hb R), (reap_lookup_Some _ _ _ _ HR).
Qed.

Lemma reachable_messages_bounded (es : list Event) :
  messages_bounded (rooms (run initial es)).
Proof.
  apply (run_invariant (λ st, messages_bounded (rooms st))).
  - apply step_messages_bounded.
  - intros R r. cbn. by rewrite lookup_empty.
Qed.

(** C2. In every state the server can reach, every stored room holds at
    most 100 messages.  An accepted [send_message] appends the new message
    at the end; when the room already holds 100 messages the first-inserted
    one is dropped and the others keep their order. *)
Theorem messages_bounded_fifo (es : list Event) (R : jsstring) (r : Room) :
  rooms (run initial es) !! R = Some r →
  length (messages r) ≤ 100
  ∧ ∀ (sid : jsstring) (ud : UserData) (text uuid ts : jsstring),
      sockets (run initial es) !! sid = Some ud →
      currentRoom ud = Some R →
      truthy (Some R) = true →
      truthy (Some (trim text)) = true →
      let m := {| id := uuid; sender := username ud; senderId := sid;
                  message := trim text; timestamp := ts |} in
      let st' := (step (run initial es)
                    (SendMessage sid {| sd_message := Some text |} uuid ts)).1 in
      ∃ r', rooms st' !! R = Some r'
        ∧ users r' = users r
        ∧ length (messages r') ≤ 100
        ∧ (length (messages r) < 100 → messages r' = messages r ++ [m])
        ∧ (length (messages r) = 100 →
           ∃ oldest rest, messages r = oldest :: rest
                          ∧ messages r' = rest ++ [m]).
Proof.
  intros HR. pose proof (reachable_messages_bounded es R r HR) as Hlen.
  split; [exact Hlen|].
  intros sid ud text uuid ts Hsock Hcur HtR Htext m st'.
  subst st'. cbn [step]. rewrite Hsock. unfold send_message.
  cbn [sd_message]. rewrite Hcur, HtR, Htext, HR. cbn [negb orb fst rooms].
  rewrite lookup_insert_eq. eexists. split; [reflexivity|].
  cbn [set_messages users messages]. split; [done|].
  split; [by apply pushBounded_length|].
  split; [apply pushBounded_below | apply pushBounded_full].
Qed.

Lemma messages_bounded_fifo_witness :
  ∃ r r' : Room,
    rooms (run initial (chatter 100)) !! lobby = Some r
    ∧ length (messages r) = 100
    ∧ rooms (run initial (chatter 101)) !! lobby = Some r'
    ∧ length (messages r') = 100
    ∧ message <$> head (messages r) = Some [48%N; 33%N]
    ∧ message <$> head (messages r') = Some [49%N; 33%N]
    ∧ message <$> last (messages r') = Some [148%N; 33%N].
Proof.
  destruct (rooms (run initial (chatter 100)) !! lobby) as [r|] eqn:HR;
    [|vm_compute in HR; discriminate].
  assert (Hlen : length (messages r) = 100).
  { assert (H : length <$> (messages <$> rooms (run initial (chatter 100)) !! lobby)
                = Some 100) by (vm_compute; reflexivity).
    rewrite HR in H. by injection H. }
  assert (Hhd : message <$> head (messages r) = Some [48%N; 33%N]).
  { assert (H : (messages <$> rooms (run initial (chatter 100)) !! lobby)
                ≫= (λ ms, message <$> head ms) = Some [48%N; 33%N])
      by (vm_compute; reflexivity).
    rewrite HR in H. exact H. }
  destruct (messages_bounded_fifo (chatter 100) lobby r HR) as [_ Hsend].
  assert (Hud : sockets (run initial (chatter 100)) !! sA
                = Some {| username := Some (of_ascii "Anon-7x3k");
                          currentRoom := Some lobby |})
    by (vm_compute; reflexivity).
  destruct (Hsend sA _ [148%N; 33%N] (of_ascii "id") (of_ascii "ts") Hud
              eq_refl eq_refl eq_refl)
    as (r' & Hr' & _ & _ & _ & Hfull).
  destruct (Hfull Hlen) as (oldest & rest & Hms & Hms').
  exists r, r'. split; [done|]. split; [done|].
  assert (Hrun : run initial (chatter 101)
                 = (step (run initial (chatter 100))
                      (SendMessage sA {| sd_message := Some [148%N; 33%N] |}
                         (of_ascii "id") (of_ascii "ts"))).1).
  { unfold chatter. rewrite (seq_S 100), map_app, app_assoc, run_app.
    reflexivity. }
  rewrite Hrun. split; [exact Hr'|].
  assert (Hrest : length rest = 99) by (rewrite Hms in Hlen; cbn in Hlen; lia).
  split; [rewrite Hms', length_app; cbn; lia|].
  split; [exact Hhd|].
  rewrite Hms'. split.
  - assert (H2 : (messages <$> rooms (run initial (chatter 100)) !! lobby)
                 ≫= (λ ms, message <$> head (tail ms)) = Some [49%N; 33%N])
      by (vm_compute; reflexivity).
    rewrite HR in H2. cbn in H2. rewrite Hms in H2. cbn in H2.
    destruct rest as [|m1 rest']; [discriminate|]. exact H2.
  - by rewrite last_snoc.
Defined.

(** ** The deferred reaper *)

Lemma reap_empty (roomId : jsstring) (rs : gmap jsstring Room) (r : Room) :
  rs !! roomId = Some r → users r = ∅ → reap roomId rs = delete roomId rs.
Proof.
  intros Hr He. unfold reap. rewrite Hr, He, size_empty. by case_decide.
Qed.

Lemma reap_nonempty (roomId : jsstring) (rs : gmap jsstring Room) (r : Room) :
  rs !! roomId = Some r → users r ≠ ∅ → reap roomId rs = rs.
Proof.
  intros Hr Hne. unfold reap. rewrite Hr. case_decide as Hs; [|done].
  by apply size_empty_iff, leibniz_equiv in Hs.
Qed.

Lemma reap_absent (roomId : jsstring) (rs : gmap jsstring Room) :
  rs !! roomId = None → reap roomId rs = rs.
Proof. intros Hr. unfold reap. by rewrite Hr. Qed.

Lemma reap_cases (roomId : jsstring) (rs : gmap jsstring Room) :
  (∃ r, rs !! roomId = Some r ∧ users r = ∅ ∧ reap roomId rs = delete roomId rs)
  ∨ (¬ (∃ r, rs !! roomId = Some r ∧ users r = ∅) ∧ reap roomId rs = rs).
Proof.
  destruct (rs !! roomId) as [r|] eqn:Hr.
  - destruct (decide (users r = ∅)) as [He|Hne].
    + left. exists r. eauto using reap_empty.
    + right. split; [|by eapply reap_nonempty].
      intros (r' & [= <-] & He). done.
  - right. split; [|by apply reap_absent]. by intros (r' & [=] & _).
Qed.

Lemma reap_lookup_ne (roomId : jsstring) (rs : gmap jsstring Room)
    (R : jsstring) :
  R ≠ roomId → reap roomId rs !! R = rs !! R.
Proof.
  intros Hne. destruct (reap_cases roomId rs) as [(r & _ & _ & ->) | [_ ->]];
    [|done].
  by rewrite lookup_delete_ne.
Qed.

(** C3. When a scheduled reap for [roomId] fires, it deletes the room if
    and only if the room is, at that moment, in the store with an empty
    membership set, and otherwise leaves the store as it is.  Hence no room
    with a member is ever deleted by a reap, a reap firing after a join to
    its room changes nothing, reaps touch no other room, and a second reap
    for the same room after the first changes nothing more. *)
Theorem reap_deletes_iff_empty (rs : gmap jsstring Room) (roomId : jsstring) :
  ((∃ r, rs !! roomId = Some r ∧ users r = ∅) →
     reap roomId rs = delete roomId rs)
  ∧ (¬ (∃ r, rs !! roomId = Some r ∧ users r = ∅) → reap roomId rs = rs)
  ∧ ((is_Some (rs !! roomId) ∧ reap roomId rs !! roomId = None)
       ↔ ∃ r, rs !! roomId = Some r ∧ users r = ∅)
  ∧ (∀ (R : jsstring) (r : Room),
       rs !! R = Some r → users r ≠ ∅ → reap roomId rs !! R = Some r)
  ∧ (∀ R : jsstring, R ≠ roomId → reap roomId rs !! R = rs !! R)
  ∧ (∀ (sid : jsstring) (data : JoinData) (rnd : jsstring) (now : N)
       (ud : UserData),
       join_roomId data = roomId →
       let rs' := (join_room sid data rnd now ud rs).1.2 in
       is_Some (rs' !! roomId) ∧ reap roomId rs' = rs')
  ∧ reap roomId (reap roomId rs) = reap roomId rs
  ∧ (∀ (st : Server) (rest : list jsstring),
       timers st = roomId :: rest →
       step st ReapFires =
         ({| rooms := reap roomId (rooms st); sockets := sockets st;
             timers := rest |}, [])).
Proof.
  split; [intros (r & Hr & He); by eapply reap_empty|].
  split.
  { intros Hn. destruct (reap_cases roomId rs) as [(r & ? & ? & _) | [_ ?]];
      [|done].
    destruct Hn; eauto. }
  split.
  { split.
    - intros [[r0 Hsome] Hgone].
      destruct (reap_cases roomId rs) as [(r & ? & ? & _) | [Hn Heq]]; [eauto|].
      rewrite Heq in Hgone. congruence.
    - intros (r & Hr & He). split; [by rewrite Hr|].
      rewrite (reap_empty _ _ _ Hr He). apply lookup_delete_eq. }
  split.
  { intros R r HR Hne. destruct (decide (R = roomId)) as [->|Hd].
    - by rewrite (reap_nonempty _ _ _ HR Hne).
    - by rewrite reap_lookup_ne. }
  split; [apply reap_lookup_ne|].
  split.
  { intros sid data rnd now ud Hd rs'. subst rs'.
    rewrite join_room_eq. cbn [fst snd]. rewrite Hd. split.
    - rewrite lookup_insert_eq. eauto.
    - eapply reap_nonempty; [apply lookup_insert_eq|].
      cbn [set_users users]. set_solver. }
  split.
  { destruct (reap_cases roomId rs) as [(r & Hr & He & ->) | [_ Heq]].
    - apply reap_absent, lookup_delete_eq.
    - by rewrite !Heq. }
  intros st rest Ht. cbn [step]. by rewrite Ht.
Qed.

Lemma reap_deletes_iff_empty_witness :
  let st := run initial [Connect sA; JoinRoom sA (JoinString lobby) rnd0 0%N;
                         Disconnect sA; Connect sB] in
  let st2 := (step st (JoinRoom sB (JoinString lobby) rnd0 1%N)).1 in
  let r2 := {| users := {[sB]}; messages := []; createdAt := 0%N |} in
  timers st = [lobby]
  ∧ (∃ r, rooms st !! lobby = Some r ∧ users r = ∅)
  ∧ rooms (step st ReapFires).1 = delete lobby (rooms st)
  ∧ rooms st2 !! lobby = Some r2
  ∧ users r2 ≠ ∅
  ∧ rooms (step st2 ReapFires).1 !! lobby = Some r2.
Proof.
  intros st st2 r2.
  assert (Ht : timers st = [lobby]) by (vm_compute; reflexivity).
  assert (He : ∃ r, rooms st !! lobby = Some r ∧ users r = ∅).
  { exists {| users := ∅; messages := []; createdAt := 0%N |}.
    split; vm_compute; reflexivity. }
  assert (Ht2 : timers st2 = [lobby]) by (vm_compute; reflexivity).
  assert (H2 : rooms st2 !! lobby = Some r2) by (vm_compute; reflexivity).
  assert (Hne : users r2 ≠ ∅) by (vm_compute; discriminate).
  destruct (reap_deletes_iff_empty (rooms st) lobby)
    as (Hdel & _ & _ & _ & _ & _ & _ & Hfire).
  destruct (reap_deletes_iff_empty (rooms st2) lobby)
    as (_ & _ & _ & Hkeep & _ & _ & _ & Hfire2).
  split; [exact Ht|]. split; [exact He|].
  split; [by rewrite (Hfire st [] Ht), <- (Hdel He)|].
  split; [exact H2|]. split; [exact Hne|].
  rewrite (Hfire2 st2 [] Ht2). exact (Hkeep lobby r2 H2 Hne).
Defined.

(** ** Rejoining the current room *)

(** C8. When the socket is already a member of the room it joins, the
    room's entry in the store after the join is the one before it (same
    membership set, same messages), the counts carried by the two emitted
    events are the size of the membership set before the join, and a
    further identical join leaves the store unchanged.  The leave step is
    still taken: when the room is the session's current room, the store
    between the leave and the re-add holds the room without the socket. *)
Theorem rejoin_same_room (sid : jsstring) (data : JoinData) (rnd : jsstring)
    (now : N) (ud : UserData) (rs : gmap jsstring Room) (r : Room) :
  rs !! join_roomId data = Some r →
  sid ∈ users r →
  let R := join_roomId data in
  let name := resolveUsername (join_customUsername data) rnd in
  let res := join_room sid data rnd now ud rs in
  res.1.2 !! R = Some r
  ∧ currentRoom res.1.1 = Some R
  ∧ res.2 =
      [ (ToSocket sid, user_joined (Some name) (size (users r)));
        (ToRoomExcept R sid,
         user_activity (of_ascii "join")
           (name ++ of_ascii " joined the chat") (size (users r))) ]
  ∧ (currentRoom ud = Some R → truthy (Some R) = true →
     ∃ r1, leavePrevious sid ud rs !! R = Some r1
           ∧ users r1 = users r ∖ {[sid]} ∧ sid ∉ users r1)
  ∧ (∀ (rnd2 : jsstring) (now2 : N),
       (join_room sid data rnd2 now2 res.1.1 res.1.2).1.2 = res.1.2).
Proof.
  intros HR Hin R name res.
  assert (Hroom : ∀ r1 : Room,
            messages r1 = messages r → createdAt r1 = createdAt r →
            users r1 = users r ∨ users r1 = users r ∖ {[sid]} →
            set_users r1 ({[sid]} ∪ users r1) = r).
  { intros [u1 m1 c1] Hm Hc Hu. destruct r as [u m c]. cbn in *. subst.
    unfold set_users. cbn. f_equal.
    destruct Hu as [-> | ->]; [set_solver|].
    apply leibniz_equiv. intros x. rewrite elem_of_union, elem_of_difference,
      elem_of_singleton. destruct (decide (x = sid)) as [->|]; naive_solver. }
  assert (Hres : res.1.2 !! R = Some r).
  { subst res. rewrite join_room_eq. cbn [fst snd]. fold R.
    rewrite lookup_insert_eq. f_equal.
    destruct (leavePrevious sid ud rs !! R) as [r1|] eqn:H1.
    - apply leavePrevious_users in H1 as (r0 & H0 & Hm & Hc & Hu).
      fold R in HR. rewrite HR in H0. injection H0 as <-. by apply Hroom.
    - pose proof (proj2 (leavePrevious_is_Some sid ud rs R)) as Hs.
      fold R in HR. rewrite HR, H1 in Hs. by destruct Hs. }
  split; [exact Hres|].
  split; [by subst res; rewrite join_room_eq|].
  split.
  { subst res. rewrite join_room_eq in Hres |- *. cbn [fst snd] in *.
    fold R name in Hres |- *. rewrite lookup_insert_eq in Hres.
    injection Hres as Hres. by rewrite Hres. }
  split.
  { intros Hcur Ht. unfold leavePrevious. rewrite Hcur, Ht. fold R in HR.
    rewrite HR, lookup_insert_eq. eexists. split; [reflexivity|].
    cbn [set_users users]. split; [done | set_solver]. }
  intros rnd2 now2.
  assert (Hud : currentRoom res.1.1 = Some R) by (subst res; by rewrite join_room_eq).
  rewrite join_room_eq. cbn [fst snd]. fold R.
  destruct (leavePrevious sid res.1.1 res.1.2 !! R) as [r1|] eqn:H1.
  - pose proof H1 as H1'.
    apply leavePrevious_users in H1 as (r0 & H0 & Hm & Hc & Hu).
    rewrite Hres in H0. injection H0 as <-. rewrite (Hroom r1 Hm Hc Hu).
    unfold leavePrevious in *. rewrite Hud in *.
    destruct (truthy (Some R)).
    + rewrite Hres in *. rewrite insert_insert_eq. by apply insert_id.
    + by apply insert_id.
  - pose proof (proj2 (leavePrevious_is_Some sid res.1.1 res.1.2 R)) as Hs.
    rewrite Hres, H1 in Hs. by destruct Hs.
Qed.

Lemma rejoin_same_room_witness :
  let st := run initial [Connect sA; Connect sB;
                         JoinRoom sA (JoinString lobby) rnd0 0%N;
                         JoinRoom sB (JoinString lobby) rnd0 1%N] in
  let ud := {| username := Some (of_ascii "Anon-7x3k");
               currentRoom := Some lobby |} in
  let r := {| users := {[sA; sB]}; messages := []; createdAt := 0%N |} in
  let data := JoinObject lobby (Some (of_ascii "Bob")) in
  rooms st !! lobby = Some r
  ∧ sB ∈ users r
  ∧ (join_room sB data rnd0 2%N ud (rooms st)).1.2 !! lobby = Some r
  ∧ (join_room sB data rnd0 2%N ud (rooms st)).2 =
      [ (ToSocket sB, user_joined (Some (of_ascii "Bob")) 2);
        (ToRoomExcept lobby sB,
         user_activity (of_ascii "join") (of_ascii "Bob joined the chat") 2) ].
Proof.
  intros st ud r data.
  assert (H1 : rooms st !! join_roomId data = Some r) by (vm_compute; reflexivity).
  assert (H2 : sB ∈ users r)
    by (apply (bool_decide_unpack _); vm_compute; exact I).
  split; [exact H1|]. split; [exact H2|].
  destruct (rejoin_same_room sB data rnd0 2%N ud (rooms st) r H1 H2)
    as (Hstore & _ & Hout & _).
  split; [exact Hstore|].
  rewrite Hout. vm_compute. reflexivity.
Defined.

(** ** Anonymous handles *)

Lemma substring_2_6 (s : jsstring) : substring s 2 6 = take 4 (drop 2 s).
Proof.
  unfold substring.
  destruct (Nat.le_gt_cases 2 (length s)) as [H2|H2].
  - rewrite (Nat.min_l 2) by lia.
    rewrite (Nat.min_l 2) by lia.
    rewrite Nat.max_r by lia.
    destruct (Nat.le_gt_cases 6 (length s)) as [H6|H6].
    + by rewrite (Nat.min_l 6) by lia.
    + rewrite (Nat.min_r 6) by lia.
      rewrite !take_ge; [done | rewrite length_drop; lia ..].
  - rewrite (Nat.min_r 2) by lia. rewrite (Nat.min_r 6) by lia.
    rewrite Nat.min_id, Nat.max_id, Nat.sub_diag.
    rewrite (drop_ge s 2) by lia. by rewrite take_nil.
Qed.

Lemma forallb_take (f : N → bool) (n : nat) (s : jsstring) :
  forallb f s = true → forallb f (take n s) = true.
Proof.
  revert n. induction s as [|c s IH]; intros [|n]; cbn; try done.
  intros [-> Hs]%andb_prop. cbn. by apply IH.
Qed.

Lemma resolveUsername_anonymous (customUsername : option jsstring)
    (rnd : jsstring) :
  customUsername = None
  ∨ (∃ cu, customUsername = Some cu ∧ trim cu = []) →
  resolveUsername customUsername rnd = generateUsername rnd.
Proof.
  intros [-> | (cu & -> & Hcu)]; [done|].
  unfold resolveUsername. rewrite Hcu. cbn [truthy]. by rewrite andb_false_r.
Qed.

(** C6 fails when [Math.random()] returns 0.5, whose base-36 text is
    "0.i": [substring(2, 6)] then finds one character where it expects
    four, and a join without username is given the name "Anon-i", which is
    not of the form "Anon-" plus four characters. *)
Lemma anonymous_handle_short :
  is_radix36_text (of_ascii "0.i") = true
  ∧ username (join_room sA (JoinString lobby) (of_ascii "0.i") 0%N fresh ∅).1.1
    = Some (of_ascii "Anon-i")
  ∧ is_anonymous_handle (of_ascii "Anon-i") = false.
Proof. vm_compute. repeat split; reflexivity. Qed.

(** What [generateUsername] computes.  When the custom username is absent
    or empty after trimming, the stored display name is "Anon-" followed by
    the first four fractional digits of the base-36 text of the random
    number, as many as there are; it has the four-character form whenever
    that text has at least four fractional digits. *)
Theorem anonymous_handle_format (sid : jsstring) (data : JoinData)
    (rnd : jsstring) (now : N) (ud : UserData) (rs : gmap jsstring Room) :
  (join_customUsername data = None
   ∨ ∃ cu, join_customUsername data = Some cu ∧ trim cu = []) →
  is_radix36_text rnd = true →
  ∃ suffix : jsstring,
    username (join_room sid data rnd now ud rs).1.1
      = Some (of_ascii "Anon-" ++ suffix)
    ∧ suffix = take 4 (drop 2 rnd)
    ∧ length suffix ≤ 4
    ∧ forallb is_lower_alnum suffix = true
    ∧ (6 ≤ length rnd →
       length suffix = 4
       ∧ is_anonymous_handle (of_ascii "Anon-" ++ suffix) = true).
Proof.
  intros Hcu Hrnd. exists (take 4 (drop 2 rnd)).
  rewrite join_room_eq. cbn [fst username].
  rewrite (resolveUsername_anonymous _ rnd Hcu).
  unfold generateUsername. rewrite substring_2_6.
  assert (Hdigits : forallb is_lower_alnum (take 4 (drop 2 rnd)) = true).
  { apply forallb_take.
    destruct rnd as [|c0 [|c1 [|d ds]]]; try done.
    cbn [is_radix36_text] in Hrnd. cbn [drop].
    by apply andb_prop in Hrnd as [_ ?]. }
  split; [done|]. split; [done|].
  split; [rewrite length_take; lia|].
  split; [exact Hdigits|].
  intros Hlen.
  assert (Hl : length (take 4 (drop 2 rnd)) = 4)
    by (rewrite length_take, length_drop; lia).
  split; [exact Hl|].
  unfold is_anonymous_handle.
  rewrite take_app_length', drop_app_length' by reflexivity.
  rewrite Hl, Hdigits. by rewrite bool_decide_eq_true_2.
Qed.

Lemma anonymous_handle_format_witness :
  let data := JoinObject lobby (Some (of_ascii "   ")) in
  (∃ cu, join_customUsername data = Some cu ∧ trim cu = [])
  ∧ is_radix36_text rnd0 = true
  ∧ username (join_room sA data rnd0 0%N fresh ∅).1.1
    = Some (of_ascii "Anon-7x3k").
Proof.
  intros data.
  assert (H1 : ∃ cu, join_customUsername data = Some cu ∧ trim cu = []).
  { exists (of_ascii "   "). split; reflexivity. }
  assert (H2 : is_radix36_text rnd0 = true) by reflexivity.
  split; [exact H1|]. split; [exact H2|].
  destruct (anonymous_handle_format sA data rnd0 0%N fresh ∅ (or_intror H1) H2)
    as (suffix & Hname & -> & _).
  exact Hname.
Defined.

(** ** Rooms emptied by a switch *)

Lemma disconnect_rooms (sid : jsstring) (ud : UserData)
    (rs : gmap jsstring Room) :
  (disconnect sid ud rs).1.1 = leavePrevious sid ud rs.
Proof.
  unfold disconnect, leavePrevious.
  destruct (currentRoom ud) as [cur|]; [|done].
  destruct (truthy (Some cur)); [|done].
  by destruct (rs !! cur).
Qed.

Lemma disconnect_scheduled (sid : jsstring) (ud : UserData)
    (rs : gmap jsstring Room) (x : jsstring) :
  x ∈ (disconnect sid ud rs).2 → currentRoom ud = Some x.
Proof.
  unfold disconnect.
  destruct (currentRoom ud) as [cur|]; [|by intros ?%elem_of_nil].
  destruct (truthy (Some cur)); [|by intros ?%elem_of_nil].
  destruct (rs !! cur); [|by intros ?%elem_of_nil].
  cbn [snd]. case_decide; [|by intros ?%elem_of_nil].
  by intros ->%list_elem_of_singleton.
Qed.

Lemma leavePrevious_current (sid : jsstring) (ud : UserData)
    (rs : gmap jsstring Room) (R : jsstring) (r : Room) :
  currentRoom ud = Some R → truthy (Some R) = true → rs !! R = Some r →
  leavePrevious sid ud rs !! R = Some (set_users r (users r ∖ {[sid]})).
Proof.
  intros Hcur Ht HR. unfold leavePrevious.
  by rewrite Hcur, Ht, HR, lookup_insert_eq.
Qed.

Lemma join_room_is_Some (sid : jsstring) (data : JoinData) (rnd : jsstring)
    (now : N) (ud : UserData) (rs : gmap jsstring Room) (R : jsstring) :
  is_Some (rs !! R) → is_Some ((join_room sid data rnd now ud rs).1.2 !! R).
Proof.
  intros Hs. rewrite join_room_eq. cbn [fst snd].
  destruct (decide (join_roomId data = R)) as [->|Hne].
  - rewrite lookup_insert_eq. eauto.
  - rewrite lookup_insert_ne by done. by apply leavePrevious_is_Some.
Qed.

Lemma send_message_lookup (sid : jsstring) (data : SendData)
    (uuid ts : jsstring) (ud : UserData) (rs : gmap jsstring Room)
    (R : jsstring) (r : Room) :
  (send_message sid data uuid ts ud rs).1 !! R = Some r →
  ∃ r0, rs !! R = Some r0 ∧ users r = users r0.
Proof.
  unfold send_message.
  destruct (currentRoom ud) as [cur|]; [|by eauto].
  destruct (sd_message data) as [msg|]; [|by eauto].
  destruct (negb _ || negb _); [by eauto|].
  destruct (rs !! cur) as [room|] eqn:Hc; [|by eauto].
  cbn [fst]. destruct (decide (cur = R)) as [->|Hne].
  - rewrite lookup_insert_eq. intros [= <-]. eauto.
  - rewrite lookup_insert_ne by done. eauto.
Qed.

Lemma send_message_is_Some (sid : jsstring) (data : SendData)
    (uuid ts : jsstring) (ud : UserData) (rs : gmap jsstring Room)
    (R : jsstring) :
  is_Some (rs !! R) → is_Some ((send_message sid data uuid ts ud rs).1 !! R).
Proof.
  intros Hs. unfold send_message.
  destruct (currentRoom ud) as [cur|]; [|done].
  destruct (sd_message data) as [msg|]; [|done].
  destruct (negb _ || negb _); [done|].
  destruct (rs !! cur) as [room|] eqn:Hc; [|done].
  cbn [fst]. destruct (decide (cur = R)) as [->|Hne].
  - rewrite lookup_insert_eq. eauto.
  - by rewrite lookup_insert_ne.
Qed.

Lemma step_kept (R : jsstring) (st : Server) (e : Event) :
  leaves R st e = false → kept R st → kept R (step st e).1.
Proof.
  intros Hq [Hs Ht].
  destruct e as [sid|sid data rnd now|sid data uuid ts|sid|]; cbn [step leaves] in *.
  - by destruct (sockets st !! sid).
  - destruct (sockets st !! sid) as [ud|]; [|done].
    pose proof (join_room_is_Some sid data rnd now ud _ R Hs) as H.
    by destruct (join_room sid data rnd now ud (rooms st)) as [[ud' rs'] out].
  - destruct (sockets st !! sid) as [ud|]; [|done].
    pose proof (send_message_is_Some sid data uuid ts ud _ R Hs) as H.
    by destruct (send_message sid data uuid ts ud (rooms st)) as [rs' out].
  - destruct (sockets st !! sid) as [ud|]; [|done].
    apply bool_decide_eq_false in Hq.
    pose proof (disconnect_rooms sid ud (rooms st)) as Hr.
    pose proof (disconnect_scheduled sid ud (rooms st) R) as Hsch.
    destruct (disconnect sid ud (rooms st)) as [[rs' out] sched].
    cbn [fst snd] in *. subst rs'. split; cbn [rooms timers].
    + by apply leavePrevious_is_Some.
    + rewrite elem_of_app. intros [Hin|Hin]; [by apply Ht|].
      by apply Hq, Hsch.
  - destruct (timers st) as [|roomId rest] eqn:Etimers.
    { split; [done|]. cbn [fst]. rewrite Etimers. apply not_elem_of_nil. }
    split; cbn [fst rooms timers].
    + rewrite reap_lookup_ne; [done|]. intros ->. apply Ht, list_elem_of_here.
    + intros Hin. by apply Ht, list_elem_of_further.
Qed.

Lemma run_kept (R : jsstring) (es : list Event) (st : Server) :
  quiet R st es = true → kept R st → kept R (run st es).
Proof.
  revert st. induction es as [|e es IH]; intros st Hq Hk; [done|].
  cbn [quiet run] in *. apply andb_prop in Hq as [Hl Hq].
  apply negb_true_iff in Hl. by apply IH, step_kept.
Qed.

Lemma step_schedules_only_on_disconnect (st : Server) (e : Event)
    (x : jsstring) :
  (∀ sid, e ≠ Disconnect sid) → x ∈ timers (step st e).1 → x ∈ timers st.
Proof.
  intros Hnd.
  destruct e as [sid|sid data rnd now|sid data uuid ts|sid|]; cbn [step].
  - by destruct (sockets st !! sid).
  - destruct (sockets st !! sid) as [ud|]; [|done].
    by destruct (join_room sid data rnd now ud (rooms st)) as [[ud' rs'] out].
  - destruct (sockets st !! sid) as [ud|]; [|done].
    by destruct (send_message sid data uuid ts ud (rooms st)) as [rs' out].
  - by destruct (Hnd sid).
  - destruct (timers st) as [|roomId rest] eqn:Etimers; cbn [fst timers].
    + by rewrite Etimers.
    + apply list_elem_of_further.
Qed.

(** C9, as stated, fails: [sA] joins the lobby and disconnects, which
    schedules a reap; [sB] joins the lobby and then switches to another
    room, leaving the lobby empty.  Nobody rejoins the lobby and nobody
    disconnects, yet the reap scheduled earlier fires and deletes it. *)
Lemma switch_then_pending_reap_deletes :
  let st := run initial [Connect sA; JoinRoom sA (JoinString lobby) rnd0 0%N;
                         Disconnect sA; Connect sB;
                         JoinRoom sB (JoinString lobby) rnd0 1%N] in
  let st' := (step st (JoinRoom sB (JoinString den) rnd0 2%N)).1 in
  (currentRoom <$> sockets st !! sB) = Some (Some lobby)
  ∧ (users <$> rooms st !! lobby) = Some {[sB]}
  ∧ (users <$> rooms st' !! lobby) = Some ∅
  ∧ timers st' = [lobby]
  ∧ quiet lobby st' [ReapFires] = true
  ∧ rooms (run st' [ReapFires]) !! lobby = None.
Proof. vm_compute. repeat split; reflexivity. Qed.

(** C9, amended. When the last member of a room switches to a different
    room with [join_room], the room stays in the store with an empty
    membership set and that join schedules no reap: only the disconnect
    handler ever adds a pending reap.  If moreover no reap for the room
    was already pending, the room stays in the store through every
    sequence of events in which no socket whose current room it is
    disconnects. *)
Theorem switch_schedules_no_reap (st : Server) (sid : jsstring) (ud : UserData)
    (data : JoinData) (rnd : jsstring) (now : N) (R : jsstring) (r : Room) :
  sockets st !! sid = Some ud →
  currentRoom ud = Some R →
  truthy (Some R) = true →
  rooms st !! R = Some r →
  users r = {[sid]} →
  join_roomId data ≠ R →
  let st' := (step st (JoinRoom sid data rnd now)).1 in
  timers st' = timers st
  ∧ rooms st' !! R = Some (set_users r ∅)
  ∧ (R ∉ timers st →
     ∀ es, quiet R st' es = true → is_Some (rooms (run st' es) !! R))
  ∧ (∀ (st0 : Server) (e : Event) (x : jsstring),
       (∀ s, e ≠ Disconnect s) →
       x ∈ timers (step st0 e).1 → x ∈ timers st0).
Proof.
  intros Hsock Hcur Ht HR Hu Hne st'.
  assert (Ht' : timers st' = timers st).
  { subst st'. cbn [step]. rewrite Hsock.
    by destruct (join_room sid data rnd now ud (rooms st)) as [[ud' rs'] out]. }
  assert (Hr' : rooms st' !! R = Some (set_users r ∅)).
  { subst st'. cbn [step]. rewrite Hsock, join_room_eq. cbn [fst rooms].
    rewrite lookup_insert_ne by done.
    rewrite (leavePrevious_current sid ud _ R r Hcur Ht HR). do 2 f_equal.
    rewrite Hu. set_solver. }
  split; [exact Ht'|]. split; [exact Hr'|]. split.
  - intros Hpend es Hq.
    apply (run_kept R es st' Hq). split; [by rewrite Hr' | by rewrite Ht'].
  - intros st0 e x. apply step_schedules_only_on_disconnect.
Qed.

Lemma switch_schedules_no_reap_witness :
  let st := run initial [Connect sA; Connect sB;
                         JoinRoom sB (JoinString lobby) rnd0 1%N] in
  let ud := {| username := Some (of_ascii "Anon-7x3k");
               currentRoom := Some lobby |} in
  let r := {| users := {[sB]}; messages := []; createdAt := 1%N |} in
  let st' := (step st (JoinRoom sB (JoinString den) rnd0 2%N)).1 in
  sockets st !! sB = Some ud
  ∧ rooms st !! lobby = Some r
  ∧ (lobby ∉ timers st)
  ∧ quiet lobby st' [ReapFires; Disconnect sB; ReapFires] = true
  ∧ is_Some (rooms (run st' [ReapFires; Disconnect sB; ReapFires]) !! lobby).
Proof.
  intros st ud r st'.
  assert (H1 : sockets st !! sB = Some ud) by (vm_compute; reflexivity).
  assert (H2 : rooms st !! lobby = Some r) by (vm_compute; reflexivity).
  assert (H3 : lobby ∉ timers st) by (vm_compute; apply not_elem_of_nil).
  assert (H4 : quiet lobby st' [ReapFires; Disconnect sB; ReapFires] = true)
    by (vm_compute; reflexivity).
  assert (Hne : join_roomId (JoinString den) ≠ lobby) by (vm_compute; discriminate).
  split; [exact H1|]. split; [exact H2|]. split; [exact H3|]. split; [exact H4|].
  destruct (switch_schedules_no_reap st sB ud (JoinString den) rnd0 2%N lobby r
              H1 eq_refl eq_refl H2 eq_refl Hne) as (_ & _ & Hkeep & _).
  exact (Hkeep H3 _ H4).
Defined.

(** ** One room per connection *)

(** C1 fails on the empty room identifier.  [sA] joins the room [""] and
    then the lobby: the empty string is falsy, so the guard of the leave
    step skips it, and [sA] stays in the membership set of [""] while it
    is added to the lobby's.  It is then a member of two rooms. *)
Theorem join_after_empty_room_id_keeps_both :
  let st := run initial [Connect sA;
                         JoinRoom sA (JoinString []) rnd0 0%N;
                         JoinRoom sA (JoinString lobby) rnd0 1%N] in
  (currentRoom <$> sockets st !! sA) = Some (Some lobby)
  ∧ (users <$> rooms st !! []) = Some {[sA]}
  ∧ (users <$> rooms st !! lobby) = Some {[sA]}
  ∧ size (roomsOf sA (rooms st)) = 2.
Proof. vm_compute. repeat split; reflexivity. Qed.

Lemma step_membership_inv (st : Server) (e : Event) :
  join_target_nonempty e = true →
  membership_inv st → membership_inv (step st e).1.
Proof.
  intros Hne Hinv.
  destruct e as [sid|sid data rnd now|sid data uuid ts|sid|]; cbn [step].
  - destruct (sockets st !! sid) as [ud|] eqn:Hs; [done|].
    intros c R r HR Hin. cbn [fst rooms sockets] in *.
    destruct (Hinv c R r HR Hin) as (udc & Hc & Hcur & Ht).
    exists udc. rewrite lookup_insert_ne; [done | congruence].
  - destruct (sockets st !! sid) as [ud|] eqn:Hs; [|done].
    rewrite join_room_eq. intros c R r HR Hin.
    cbn [fst rooms sockets join_target_nonempty] in *.
    destruct (decide (c = sid)) as [->|Hc].
    + eexists. split; [apply lookup_insert_eq|]. cbn [currentRoom].
      destruct (decide (join_roomId data = R)) as [<-|HneR]; [done|].
      exfalso. rewrite lookup_insert_ne in HR by done.
      pose proof HR as HR'.
      apply leavePrevious_users in HR' as (r0 & H0 & _ & _ & Hu).
      assert (Hin0 : sid ∈ users r0) by (destruct Hu as [Hu|Hu]; set_solver).
      destruct (Hinv sid R r0 H0 Hin0) as (ud0 & Hud0 & Hcur & Ht).
      rewrite Hs in Hud0. injection Hud0 as <-.
      rewrite (leavePrevious_current sid ud _ R r0 Hcur Ht H0) in HR.
      injection HR as <-. cbn [set_users users] in Hin. set_solver.
    + assert (Hold : ∃ r0, rooms st !! R = Some r0 ∧ c ∈ users r0).
      { destruct (decide (join_roomId data = R)) as [HeqR|HneR].
        - rewrite HeqR, lookup_insert_eq in HR. injection HR as <-.
          cbn [set_users users] in Hin.
          destruct (leavePrevious sid ud (rooms st) !! R) as [r1|] eqn:H1;
            [|set_solver].
          apply leavePrevious_users in H1 as (r0 & H0 & _ & _ & Hu).
          exists r0. split; [done|]. destruct Hu as [Hu|Hu]; set_solver.
        - rewrite lookup_insert_ne in HR by done.
          apply leavePrevious_users in HR as (r0 & H0 & _ & _ & Hu).
          exists r0. split; [done|]. destruct Hu as [Hu|Hu]; set_solver. }
      destruct Hold as (r0 & H0 & Hin0).
      destruct (Hinv c R r0 H0 Hin0) as (udc & Hudc & Hcur & Ht).
      exists udc. by rewrite lookup_insert_ne.
  - destruct (sockets st !! sid) as [ud|] eqn:Hs; [|done].
    intros c R r. pose proof (send_message_lookup sid data uuid ts ud (rooms st) R r) as Hl.
    destruct (send_message sid data uuid ts ud (rooms st)) as [rs' out].
    cbn [fst rooms sockets] in *. intros HR Hin.
    destruct (Hl HR) as (r0 & H0 & Hu). apply (Hinv c R r0 H0). by rewrite <- Hu.
  - destruct (sockets st !! sid) as [ud|] eqn:Hs; [|done].
    pose proof (disconnect_rooms sid ud (rooms st)) as Hr.
    destruct (disconnect sid ud (rooms st)) as [[rs' out] sched].
    cbn [fst] in Hr. subst rs'. intros c R r HR Hin.
    cbn [fst rooms sockets] in *. pose proof HR as HR'.
    apply leavePrevious_users in HR' as (r0 & H0 & _ & _ & Hu).
    assert (Hin0 : c ∈ users r0) by (destruct Hu as [Hu|Hu]; set_solver).
    destruct (Hinv c R r0 H0 Hin0) as (udc & Hudc & Hcur & Ht).
    destruct (decide (c = sid)) as [->|Hc].
    + exfalso. rewrite Hs in Hudc. injection Hudc as <-.
      rewrite (leavePrevious_current sid ud _ R r0 Hcur Ht H0) in HR.
      injection HR as <-. cbn [set_users users] in Hin. set_solver.
    + exists udc. by rewrite lookup_delete_ne.
  - destruct (timers st) as [|roomId rest] eqn:Etimers; [done|].
    intros c R r HR Hin. cbn [fst rooms sockets] in *.
    apply (Hinv c R r); [by eapply reap_lookup_Some | done].
Qed.

Lemma run_membership_inv (es : list Event) (st : Server) :
  forallb join_target_nonempty es = true →
  membership_inv st → membership_inv (run st es).
Proof.
  revert st. induction es as [|e es IH]; intros st Hes Hst; [done|].
  cbn [forallb run] in *. apply andb_prop in Hes as [He Hes].
  by apply IH, step_membership_inv.
Qed.

(** As long as no [join_room] names the empty room identifier, a socket is
    a member of no room but the current room of its session, the one named
    in its latest [join_room]. *)
Lemma single_membership (es : list Event) (sid R : jsstring) (r : Room) :
  forallb join_target_nonempty es = true →
  rooms (run initial es) !! R = Some r →
  sid ∈ users r →
  ∃ ud, sockets (run initial es) !! sid = Some ud ∧ currentRoom ud = Some R.
Proof.
  intros Hes HR Hin.
  assert (Hinv : membership_inv (run initial es)).
  { apply run_membership_inv; [done|].
    intros c R' r'. cbn. by rewrite lookup_empty. }
  destruct (Hinv sid R r HR Hin) as (ud & ? & ? & _). eauto.
Qed.

(** * Further properties of the handlers and endpoints *)

(** ** Trimming *)

Lemma trimStart_nonws (c : N) (t : jsstring) :
  is_ws c = false → trimStart (c :: t) = c :: t.
Proof. intros Hc. cbn [trimStart]. by rewrite Hc. Qed.

Lemma trimStart_head (s : jsstring) :
  trimStart s = [] ∨ ∃ c t, trimStart s = c :: t ∧ is_ws c = false.
Proof.
  induction s as [|c s IH]; [by left|].
  cbn [trimStart]. destruct (is_ws c) eqn:Hc; [exact IH|].
  right. by exists c, s.
Qed.

Lemma trimStart_idem (s : jsstring) : trimStart (trimStart s) = trimStart s.
Proof.
  destruct (trimStart_head s) as [-> | (c & t & -> & Hc)]; [done|].
  by apply trimStart_nonws.
Qed.

Lemma trimStart_snoc (l : jsstring) (c : N) :
  is_ws c = false → trimStart (l ++ [c]) = trimStart l ++ [c].
Proof.
  intros Hc. induction l as [|d l IH]; cbn [app trimStart].
  - by rewrite Hc.
  - by destruct (is_ws d).
Qed.

Lemma trimEnd_cons (c : N) (t : jsstring) :
  is_ws c = false → trimEnd (c :: t) = c :: trimEnd t.
Proof.
  intros Hc. unfold trimEnd. cbn [rev].
  by rewrite (trimStart_snoc _ _ Hc), rev_unit.
Qed.

Lemma trimEnd_idem (t : jsstring) : trimEnd (trimEnd t) = trimEnd t.
Proof. unfold trimEnd. by rewrite rev_involutive, trimStart_idem. Qed.

Lemma trim_idem (s : jsstring) : trim (trim s) = trim s.
Proof.
  unfold trim. destruct (trimStart_head s) as [-> | (c & t & -> & Hc)]; [done|].
  rewrite (trimEnd_cons _ _ Hc), (trimStart_nonws _ _ Hc), (trimEnd_cons _ _ Hc).
  by rewrite trimEnd_idem.
Qed.

(** ** getOrCreateRoom *)

(** X1. [getOrCreateRoom] returns the room stored under the identifier
    after the call, never replaces a room that is already stored (members,
    messages and creation time are kept), touches no other identifier, and
    a second call returns the room of the first with the store unchanged,
    whatever the clock says then. *)
Theorem getOrCreateRoom_stable (roomId : jsstring) (now now2 : N)
    (rs : gmap jsstring Room) :
  let res := getOrCreateRoom roomId now rs in
  res.1 !! roomId = Some res.2
  ∧ (∀ r, rs !! roomId = Some r → res = (rs, r))
  ∧ (rs !! roomId = None →
     res.2 = {| users := ∅; messages := []; createdAt := now |}
     ∧ size res.1 = S (size rs))
  ∧ (∀ R, R ≠ roomId → res.1 !! R = rs !! R)
  ∧ getOrCreateRoom roomId now2 res.1 = res.
Proof.
  intros res. subst res. unfold getOrCreateRoom.
  destruct (rs !! roomId) as [r|] eqn:Hr; cbn [fst snd].
  - rewrite Hr. split; [done|]. split; [by intros r' [= <-]|].
    split; [done|]. split; done.
  - rewrite lookup_insert_eq. split; [done|]. split; [done|].
    split; [intros _; split; [done | by apply map_size_insert_None]|].
    split; [intros R HR; by rewrite lookup_insert_ne | done].
Qed.

Lemma getOrCreateRoom_stable_witness :
  let rs := rooms (run initial [Connect sA; JoinRoom sA (JoinString lobby) rnd0 3%N]) in
  let r := {| users := {[sA]}; messages := []; createdAt := 3%N |} in
  rs !! lobby = Some r
  ∧ getOrCreateRoom lobby 8%N rs = (rs, r)
  ∧ rs !! den = None
  ∧ (getOrCreateRoom den 8%N rs).2
    = {| users := ∅; messages := []; createdAt := 8%N |}
  ∧ (getOrCreateRoom den 8%N rs).1 !! lobby = Some r.
Proof.
  intros rs r.
  assert (H1 : rs !! lobby = Some r) by (vm_compute; reflexivity).
  assert (H2 : rs !! den = None) by (vm_compute; reflexivity).
  destruct (getOrCreateRoom_stable lobby 8%N 9%N rs) as (_ & Hkeep & _).
  destruct (getOrCreateRoom_stable den 8%N 9%N rs) as (_ & _ & Hnew & Hframe & _).
  split; [exact H1|]. split; [exact (Hkeep r H1)|]. split; [exact H2|].
  split; [exact (proj1 (Hnew H2))|].
  rewrite Hframe; [exact H1 | vm_compute; discriminate].
Defined.

(** ** Payload forms *)

(** X2. The bare-string form of the [join_room] payload, an object
    without username, and an object whose username is empty or only
    whitespace all have the same effect: same session, same store, same
    emitted events, with a generated name. *)
Theorem join_room_payload_forms (sid roomId rnd : jsstring) (now : N)
    (ud : UserData) (rs : gmap jsstring Room) (cu : jsstring) :
  trim cu = [] →
  join_room sid (JoinObject roomId None) rnd now ud rs
    = join_room sid (JoinString roomId) rnd now ud rs
  ∧ join_room sid (JoinObject roomId (Some cu)) rnd now ud rs
    = join_room sid (JoinString roomId) rnd now ud rs
  ∧ username (join_room sid (JoinString roomId) rnd now ud rs).1.1
    = Some (generateUsername rnd).
Proof.
  intros Hcu. rewrite !join_room_eq.
  cbn [join_roomId join_customUsername fst username].
  rewrite (resolveUsername_anonymous (Some cu) rnd) by eauto.
  done.
Qed.

Lemma join_room_payload_forms_witness :
  let cu := [9%N; 32%N; 160%N; 10%N] in
  trim cu = []
  ∧ join_room sA (JoinObject lobby (Some cu)) rnd0 3%N fresh ∅
    = join_room sA (JoinString lobby) rnd0 3%N fresh ∅.
Proof.
  intros cu.
  assert (Hcu : trim cu = []) by (vm_compute; reflexivity).
  split; [exact Hcu|].
  exact (proj1 (proj2 (join_room_payload_forms sA lobby rnd0 3%N fresh ∅ cu Hcu))).
Defined.

(** ** How a room's entry can change *)

Lemma join_room_lookup (sid : jsstring) (data : JoinData) (rnd : jsstring)
    (now : N) (ud : UserData) (rs : gmap jsstring Room) (R : jsstring)
    (r' : Room) :
  (join_room sid data rnd now ud rs).1.2 !! R = Some r' →
  (∃ r, rs !! R = Some r ∧ messages r' = messages r
        ∧ createdAt r' = createdAt r)
  ∨ (rs !! R = None ∧ R = join_roomId data
     ∧ r' = {| users := {[sid]}; messages := []; createdAt := now |}).
Proof.
  rewrite join_room_eq. cbn [fst snd].
  destruct (decide (join_roomId data = R)) as [HeqR|HneR].
  - rewrite HeqR, lookup_insert_eq. intros [= <-].
    destruct (leavePrevious sid ud rs !! R) as [r1|] eqn:H1.
    + apply leavePrevious_users in H1 as (r0 & H0 & Hm & Hc & _).
      left. exists r0. by cbn [set_users messages createdAt].
    + right. split.
      * destruct (rs !! R) eqn:HR; [|done].
        assert (Hs : is_Some (leavePrevious sid ud rs !! R))
          by (apply leavePrevious_is_Some; rewrite HR; eauto).
        rewrite H1 in Hs. by destruct Hs.
      * split; [done|]. unfold set_users. cbn. f_equal. set_solver.
  - rewrite lookup_insert_ne by done. intros H1.
    apply leavePrevious_users in H1 as (r0 & H0 & Hm & Hc & _).
    left. by exists r0.
Qed.

Lemma send_message_lookup_full (sid : jsstring) (data : SendData)
    (uuid ts : jsstring) (ud : UserData) (rs : gmap jsstring Room)
    (R : jsstring) (r' : Room) :
  (send_message sid data uuid ts ud rs).1 !! R = Some r' →
  ∃ r, rs !! R = Some r ∧ users r' = users r ∧ createdAt r' = createdAt r
    ∧ (messages r' = messages r
       ∨ ∃ text, currentRoom ud = Some R ∧ sd_message data = Some text
           ∧ truthy (Some (trim text)) = true
           ∧ messages r' =
               pushBounded (messages r) (messageObj sid ud text uuid ts)).
Proof.
  unfold send_message.
  destruct (currentRoom ud) as [cur|]; [|by eauto 10].
  destruct (sd_message data) as [msg|]; [|by eauto 10].
  destruct (truthy (Some cur)); [|by eauto 10].
  destruct (truthy (Some (trim msg))) eqn:Hmsg; [|by eauto 10].
  cbn [negb orb].
  destruct (rs !! cur) as [room|] eqn:Hc; [|by eauto 10].
  cbn [fst]. destruct (decide (cur = R)) as [->|Hne].
  - rewrite lookup_insert_eq. intros [= <-]. exists room.
    split; [done|]. split; [done|]. split; [done|]. right. by exists msg.
  - rewrite lookup_insert_ne by done. eauto 10.
Qed.

Lemma step_room_cases (st : Server) (e : Event) (R : jsstring) (r' : Room) :
  rooms (step st e).1 !! R = Some r' →
  (rooms st !! R = None
   ∧ ∃ sid data rnd now,
       e = JoinRoom sid data rnd now ∧ R = join_roomId data
       ∧ r' = {| users := {[sid]}; messages := []; createdAt := now |})
  ∨ (∃ r, rooms st !! R = Some r ∧ createdAt r' = createdAt r
       ∧ (messages r' = messages r
          ∨ ∃ sid data uuid ts ud text,
              e = SendMessage sid data uuid ts
              ∧ sockets st !! sid = Some ud ∧ currentRoom ud = Some R
              ∧ sd_message data = Some text
              ∧ truthy (Some (trim text)) = true
              ∧ messages r' =
                  pushBounded (messages r) (messageObj sid ud text uuid ts))).
Proof.
  destruct e as [sid|sid data rnd now|sid data uuid ts|sid|]; cbn [step].
  - destruct (sockets st !! sid); cbn [fst rooms]; intros HR; right; eauto.
  - destruct (sockets st !! sid) as [ud|] eqn:Hs; [|intros HR; right; eauto].
    pose proof (join_room_lookup sid data rnd now ud (rooms st) R r') as Hl.
    destruct (join_room sid data rnd now ud (rooms st)) as [[ud' rs'] out].
    cbn [fst snd rooms] in *. intros HR.
    destruct (Hl HR) as [(r & H0 & Hm & Hc) | (H0 & -> & ->)].
    + right. exists r. eauto.
    + left. split; [done|]. by exists sid, data, rnd, now.
  - destruct (sockets st !! sid) as [ud|] eqn:Hs; [|intros HR; right; eauto].
    pose proof (send_message_lookup_full sid data uuid ts ud (rooms st) R r') as Hl.
    destruct (send_message sid data uuid ts ud (rooms st)) as [rs' out].
    cbn [fst snd rooms] in *. intros HR.
    destruct (Hl HR) as (r & H0 & _ & Hc & [Hm | (text & Hcur & Hd & Ht & Hm)]).
    + right. exists r. eauto.
    + right. exists r. split; [done|]. split; [done|]. right.
      by exists sid, data, uuid, ts, ud, text.
  - destruct (sockets st !! sid) as [ud|] eqn:Hs; [|intros HR; right; eauto].
    pose proof (disconnect_rooms sid ud (rooms st)) as Hr.
    destruct (disconnect sid ud (rooms st)) as [[rs' out] sched].
    cbn [fst snd rooms] in *. subst rs'. intros HR.
    apply leavePrevious_users in HR as (r & H0 & Hm & Hc & _).
    right. exists r. eauto.
  - destruct (timers st) as [|roomId rest]; cbn [fst rooms]; intros HR.
    + right. eauto.
    + right. exists r'. split; [by eapply reap_lookup_Some | eauto].
Qed.

(** X3. Whatever the event, a room that is stored before and after it
    has the same creation time, and the same messages unless the event is
    a [send_message] with non-blank text from a connected socket whose
    current room it is, which pushes that one message. *)
Theorem step_room_history (st : Server) (e : Event) (R : jsstring)
    (r r' : Room) :
  rooms st !! R = Some r →
  rooms (step st e).1 !! R = Some r' →
  createdAt r' = createdAt r
  ∧ (messages r' = messages r
     ∨ ∃ sid data uuid ts ud text,
         e = SendMessage sid data uuid ts
         ∧ sockets st !! sid = Some ud ∧ currentRoom ud = Some R
         ∧ sd_message data = Some text
         ∧ truthy (Some (trim text)) = true
         ∧ messages r' =
             pushBounded (messages r) (messageObj sid ud text uuid ts)).
Proof.
  intros Hr HR'.
  destruct (step_room_cases st e R r' HR') as [[Hnone _] | (r0 & Hr0 & Hc & Hm)].
  - congruence.
  - rewrite Hr in Hr0. injection Hr0 as <-. by split.
Qed.

Lemma step_room_history_witness :
  let st := run initial [Connect sA; JoinRoom sA (JoinString lobby) rnd0 5%N] in
  let e := SendMessage sA {| sd_message := Some (of_ascii " hi ") |}
             (of_ascii "u") (of_ascii "t") in
  let r := {| users := {[sA]}; messages := []; createdAt := 5%N |} in
  let r' := {| users := {[sA]};
               messages := [messageObj sA {| username := Some (of_ascii "Anon-7x3k");
                                             currentRoom := Some lobby |}
                              (of_ascii " hi ") (of_ascii "u") (of_ascii "t")];
               createdAt := 5%N |} in
  rooms st !! lobby = Some r
  ∧ rooms (step st e).1 !! lobby = Some r'
  ∧ createdAt r' = createdAt r.
Proof.
  intros st e r r'.
  assert (H1 : rooms st !! lobby = Some r) by (vm_compute; reflexivity).
  assert (H2 : rooms (step st e).1 !! lobby = Some r') by (vm_compute; reflexivity).
  split; [exact H1|]. split; [exact H2|].
  exact (proj1 (step_room_history st e lobby r r' H1 H2)).
Defined.

(** ** Stored messages *)

Lemma pushBounded_elem (ms : list Message) (m x : Message) :
  x ∈ pushBounded ms m → x ∈ ms ∨ x = m.
Proof.
  unfold pushBounded. intros Hx.
  assert (Hin : x ∈ ms ++ [m]).
  { destruct (100 <? length (ms ++ [m])); [|done].
    destruct (ms ++ [m]) as [|m0 l]; [done|]. by apply list_elem_of_further. }
  apply elem_of_app in Hin as [?|?%list_elem_of_singleton]; eauto.
Qed.

Lemma step_messages_clean (st : Server) (e : Event) :
  messages_clean (rooms st) → messages_clean (rooms (step st e).1).
Proof.
  intros Hc R r' m HR Hm.
  destruct (step_room_cases st e R r' HR)
    as [(_ & sid & data & rnd & now & _ & _ & ->)
       | (r & Hr & _ & [Heq | (sid & data & uuid & ts & ud & text & _ & _ & _ & _ & Ht & Heq)])].
  - cbn [messages] in Hm. by apply elem_of_nil in Hm.
  - rewrite Heq in Hm. by apply (Hc R r).
  - rewrite Heq in Hm. apply pushBounded_elem in Hm as [Hm | ->].
    + by apply (Hc R r).
    + split; cbn [messageObj message]; [by apply truthy_Some | apply trim_idem].
Qed.

(** X4. In every state the server can reach, the text of every stored
    message is not empty and is already trimmed: it neither starts nor
    ends with whitespace. *)
Theorem stored_messages_clean (es : list Event) (R : jsstring) (r : Room)
    (m : Message) :
  rooms (run initial es) !! R = Some r →
  m ∈ messages r →
  message m ≠ [] ∧ trim (message m) = message m
  ∧ trimStart (message m) = message m ∧ trimEnd (message m) = message m.
Proof.
  intros HR Hm.
  assert (Hc : clean m).
  { revert R r m HR Hm. fold (messages_clean (rooms (run initial es))).
    apply (run_invariant (λ st, messages_clean (rooms st))).
    - apply step_messages_clean.
    - intros R r m. cbn. by rewrite lookup_empty. }
  destruct Hc as [Hne Htrim]. split; [done|]. split; [done|].
  unfold trim in Htrim.
  destruct (trimStart_head (message m)) as [He | (c & t & He & Hc)].
  - rewrite He in Htrim. cbn in Htrim. congruence.
  - rewrite He in Htrim. rewrite (trimEnd_cons _ _ Hc) in Htrim.
    assert (Hs : trimStart (message m) = message m).
    { rewrite <- Htrim. apply trimStart_nonws, Hc. }
    split; [exact Hs|]. rewrite Hs in He. rewrite He in Htrim |- *.
    injection Htrim as Ht. by rewrite (trimEnd_cons _ _ Hc), Ht.
Qed.

Lemma stored_messages_clean_witness :
  let es := [Connect sA; JoinRoom sA (JoinString lobby) rnd0 5%N;
             SendMessage sA {| sd_message := Some (of_ascii "  hi there ") |}
               (of_ascii "u") (of_ascii "t")] in
  let m := messageObj sA {| username := Some (of_ascii "Anon-7x3k");
                            currentRoom := Some lobby |}
             (of_ascii "  hi there ") (of_ascii "u") (of_ascii "t") in
  let r := {| users := {[sA]}; messages := [m]; createdAt := 5%N |} in
  rooms (run initial es) !! lobby = Some r
  ∧ m ∈ messages r
  ∧ message m = of_ascii "hi there"
  ∧ trim (message m) = message m.
Proof.
  intros es m r.
  assert (H1 : rooms (run initial es) !! lobby = Some r) by (vm_compute; reflexivity).
  assert (H2 : m ∈ messages r) by apply list_elem_of_here.
  split; [exact H1|]. split; [exact H2|]. split; [reflexivity|].
  exact (proj1 (proj2 (stored_messages_clean es lobby r m H1 H2))).
Defined.

(** ** Accepted messages *)

Lemma pushBounded_last (ms : list Message) (m : Message) :
  last (pushBounded ms m) = Some m.
Proof.
  unfold pushBounded. destruct (100 <? length (ms ++ [m])) eqn:Hc.
  - destruct ms as [|m0 rest]; [done|]. cbn [app tail]. apply last_snoc.
  - apply last_snoc.
Qed.

(** X5. A [send_message] with non-blank text from a socket whose current
    room is stored emits exactly one [receive_message], addressed to the
    whole room (sender included), and the message it carries is the one
    stored last in that room: sender name and id from the session, text
    trimmed.  Members, other rooms, sessions and pending reaps are
    untouched. *)
Theorem send_message_accepted (st : Server) (sid : jsstring) (ud : UserData)
    (text uuid ts R : jsstring) (r : Room) :
  sockets st !! sid = Some ud →
  currentRoom ud = Some R →
  truthy (Some R) = true →
  truthy (Some (trim text)) = true →
  rooms st !! R = Some r →
  let m := messageObj sid ud text uuid ts in
  let res := step st (SendMessage sid {| sd_message := Some text |} uuid ts) in
  res.2 = [ (ToRoom R, receive_message m) ]
  ∧ (∃ r', rooms res.1 !! R = Some r' ∧ last (messages r') = Some m
           ∧ users r' = users r)
  ∧ (∀ R', R' ≠ R → rooms res.1 !! R' = rooms st !! R')
  ∧ sockets res.1 = sockets st
  ∧ timers res.1 = timers st.
Proof.
  intros Hs Hcur HtR Ht HR m res. subst res. cbn [step]. rewrite Hs.
  unfold send_message. cbn [sd_message]. rewrite Hcur, HtR, Ht, HR.
  cbn [negb orb fst snd rooms sockets timers]. split; [done|]. split.
  - eexists. rewrite lookup_insert_eq. split; [reflexivity|].
    cbn [set_messages messages users]. split; [apply pushBounded_last | done].
  - split; [|done]. intros R' Hne. by rewrite lookup_insert_ne.
Qed.

Lemma send_message_accepted_witness :
  let st := run initial [Connect sA; Connect sB;
                         JoinRoom sA (JoinObject lobby (Some (of_ascii "Alice"))) rnd0 0%N;
                         JoinRoom sB (JoinObject lobby (Some (of_ascii "Bob"))) rnd0 1%N] in
  let ud := {| username := Some (of_ascii "Alice"); currentRoom := Some lobby |} in
  let r := {| users := {[sA; sB]}; messages := []; createdAt := 0%N |} in
  sockets st !! sA = Some ud
  ∧ rooms st !! lobby = Some r
  ∧ (step st (SendMessage sA {| sd_message := Some (of_ascii "hi") |}
                (of_ascii "u") (of_ascii "t"))).2
    = [ (ToRoom lobby,
         receive_message {| id := of_ascii "u"; sender := Some (of_ascii "Alice");
                            senderId := sA; message := of_ascii "hi";
                            timestamp := of_ascii "t" |}) ].
Proof.
  intros st ud r.
  assert (H1 : sockets st !! sA = Some ud) by (vm_compute; reflexivity).
  assert (H2 : rooms st !! lobby = Some r) by (vm_compute; reflexivity).
  split; [exact H1|]. split; [exact H2|].
  exact (proj1 (send_message_accepted st sA ud (of_ascii "hi") (of_ascii "u")
                  (of_ascii "t") lobby r H1 eq_refl eq_refl eq_refl H2)).
Defined.

(** ** Disconnecting *)

(** X6. When a socket whose current room is stored disconnects, the room
    keeps its messages and loses that socket only; one [user_activity] of
    type "leave" goes to the room except the leaver, with the number of
    members left; the session is gone; a reap for the room is scheduled
    exactly when no member is left; other rooms are untouched. *)
Theorem disconnect_leaves_room (st : Server) (sid : jsstring) (ud : UserData)
    (R : jsstring) (r : Room) :
  sockets st !! sid = Some ud →
  currentRoom ud = Some R →
  truthy (Some R) = true →
  rooms st !! R = Some r →
  let res := step st (Disconnect sid) in
  let remaining := users r ∖ {[sid]} in
  rooms res.1 !! R = Some (set_users r remaining)
  ∧ res.2 =
      [ (ToRoomExcept R sid,
         user_activity (of_ascii "leave")
           (interpolate (username ud) ++ of_ascii " left the chat")
           (size remaining)) ]
  ∧ (sid ∈ users r → S (size remaining) = size (users r))
  ∧ sockets res.1 !! sid = None
  ∧ (∀ R', R' ≠ R → rooms res.1 !! R' = rooms st !! R')
  ∧ (remaining = ∅ → timers res.1 = timers st ++ [R])
  ∧ (remaining ≠ ∅ → timers res.1 = timers st).
Proof.
  intros Hs Hcur Ht HR res remaining. subst res. cbn [step]. rewrite Hs.
  unfold disconnect. rewrite Hcur, Ht, HR.
  cbn [fst snd rooms sockets timers set_users users]. fold remaining.
  split; [apply lookup_insert_eq|]. split; [done|]. split.
  { intros Hin. subst remaining.
    rewrite size_difference by set_solver. rewrite size_singleton.
    assert (size (users r) ≠ 0); [|lia].
    intros Hz. apply size_empty_iff in Hz. set_solver. }
  split; [apply lookup_delete_eq|].
  split; [intros R' Hne; by rewrite lookup_insert_ne|].
  split.
  - intros He. rewrite He, size_empty. by case_decide.
  - intros Hne. case_decide as Hz; [|by rewrite app_nil_r].
    by apply size_empty_iff, leibniz_equiv in Hz.
Qed.

Lemma disconnect_leaves_room_witness :
  let st := run initial [Connect sA; Connect sB;
                         JoinRoom sA (JoinObject lobby (Some (of_ascii "Alice"))) rnd0 0%N;
                         JoinRoom sB (JoinObject lobby (Some (of_ascii "Bob"))) rnd0 1%N] in
  let ud := {| username := Some (of_ascii "Bob"); currentRoom := Some lobby |} in
  let r := {| users := {[sA; sB]}; messages := []; createdAt := 0%N |} in
  sockets st !! sB = Some ud
  ∧ rooms st !! lobby = Some r
  ∧ (step st (Disconnect sB)).2
    = [ (ToRoomExcept lobby sB,
         user_activity (of_ascii "leave") (of_ascii "Bob left the chat") 1) ]
  ∧ timers (step st (Disconnect sB)).1 = [].
Proof.
  intros st ud r.
  assert (H1 : sockets st !! sB = Some ud) by (vm_compute; reflexivity).
  assert (H2 : rooms st !! lobby = Some r) by (vm_compute; reflexivity).
  split; [exact H1|]. split; [exact H2|].
  destruct (disconnect_leaves_room st sB ud lobby r H1 eq_refl eq_refl H2)
    as (_ & Hout & _ & _ & _ & _ & Hkeep).
  split.
  - rewrite Hout. vm_compute. reflexivity.
  - rewrite Hkeep; [vm_compute; reflexivity | vm_compute; discriminate].
Defined.

(** X7. When a socket that has no current room, or whose current room is
    the empty string, disconnects, only its session is removed: no room
    changes, so a membership it holds in the room [""] stays, nothing is
    emitted and no reap is scheduled. *)
Theorem disconnect_without_room (st : Server) (sid : jsstring) (ud : UserData) :
  sockets st !! sid = Some ud →
  truthy (currentRoom ud) = false →
  step st (Disconnect sid) =
    ({| rooms := rooms st; sockets := delete sid (sockets st);
        timers := timers st |}, [])
  ∧ ∀ R r, rooms st !! R = Some r → sid ∈ users r →
      ∃ r', rooms (step st (Disconnect sid)).1 !! R = Some r' ∧ sid ∈ users r'.
Proof.
  intros Hs Ht.
  assert (Heq : step st (Disconnect sid) =
                ({| rooms := rooms st; sockets := delete sid (sockets st);
                    timers := timers st |}, [])).
  { cbn [step]. rewrite Hs. unfold disconnect.
    destruct (currentRoom ud) as [cur|]; [|by rewrite app_nil_r].
    rewrite Ht. by rewrite app_nil_r. }
  split; [exact Heq|]. intros R r HR Hin. rewrite Heq. eauto.
Qed.

Lemma disconnect_without_room_witness :
  let st := run initial [Connect sA; JoinRoom sA (JoinString []) rnd0 0%N] in
  let ud := {| username := Some (of_ascii "Anon-7x3k"); currentRoom := Some [] |} in
  let r := {| users := {[sA]}; messages := []; createdAt := 0%N |} in
  sockets st !! sA = Some ud
  ∧ truthy (currentRoom ud) = false
  ∧ rooms st !! [] = Some r
  ∧ sockets (step st (Disconnect sA)).1 !! sA = None
  ∧ rooms (step st (Disconnect sA)).1 !! [] = Some r
  ∧ timers (step st (Disconnect sA)).1 = [].
Proof.
  intros st ud r.
  assert (H1 : sockets st !! sA = Some ud) by (vm_compute; reflexivity).
  assert (H2 : truthy (currentRoom ud) = false) by reflexivity.
  assert (H3 : rooms st !! [] = Some r) by (vm_compute; reflexivity).
  split; [exact H1|]. split; [exact H2|]. split; [exact H3|].
  rewrite (proj1 (disconnect_without_room st sA ud H1 H2)).
  cbn [fst rooms sockets timers].
  split; [apply lookup_delete_eq|]. split; [exact H3 | vm_compute; reflexivity].
Defined.

(** ** Switching rooms *)

(** X8. When a socket whose current room is stored joins a different
    room, the previous room loses that socket and nothing else (messages,
    other members and creation time stay), no emitted event is addressed
    to the previous room, and rooms other than the two are untouched. *)
Theorem join_room_switch (sid : jsstring) (data : JoinData) (rnd : jsstring)
    (now : N) (ud : UserData) (rs : gmap jsstring Room) (R : jsstring)
    (r : Room) :
  currentRoom ud = Some R →
  truthy (Some R) = true →
  rs !! R = Some r →
  join_roomId data ≠ R →
  let res := join_room sid data rnd now ud rs in
  res.1.2 !! R = Some (set_users r (users r ∖ {[sid]}))
  ∧ (∀ t p, (t, p) ∈ res.2 →
       t = ToSocket sid ∨ t = ToRoomExcept (join_roomId data) sid)
  ∧ (∀ R', R' ≠ R → R' ≠ join_roomId data → res.1.2 !! R' = rs !! R').
Proof.
  intros Hcur Ht HR Hne res. subst res. rewrite join_room_eq. cbn [fst snd].
  split.
  { rewrite lookup_insert_ne by done.
    by apply leavePrevious_current. }
  split.
  { intros t p Hin. apply elem_of_cons in Hin as [[= -> _] | Hin]; [by left|].
    apply list_elem_of_singleton in Hin as [= -> _]. by right. }
  intros R' H1 H2. rewrite lookup_insert_ne by done.
  unfold leavePrevious. rewrite Hcur, Ht, HR. by rewrite lookup_insert_ne.
Qed.

Lemma join_room_switch_witness :
  let st := run initial [Connect sA; Connect sB;
                         JoinRoom sA (JoinString lobby) rnd0 0%N;
                         JoinRoom sB (JoinString lobby) rnd0 1%N] in
  let ud := {| username := Some (of_ascii "Anon-7x3k"); currentRoom := Some lobby |} in
  let r := {| users := {[sA; sB]}; messages := []; createdAt := 0%N |} in
  rooms st !! lobby = Some r
  ∧ join_roomId (JoinString den) ≠ lobby
  ∧ (join_room sB (JoinString den) rnd0 2%N ud (rooms st)).1.2 !! lobby
    = Some {| users := {[sA]}; messages := []; createdAt := 0%N |}.
Proof.
  intros st ud r.
  assert (H1 : rooms st !! lobby = Some r) by (vm_compute; reflexivity).
  assert (H2 : join_roomId (JoinString den) ≠ lobby) by (vm_compute; discriminate).
  split; [exact H1|]. split; [exact H2|].
  rewrite (proj1 (join_room_switch sB (JoinString den) rnd0 2%N ud (rooms st)
                    lobby r eq_refl eq_refl H1 H2)).
  vm_compute. reflexivity.
Defined.

(** ** Display names *)

Lemma resolveUsername_length (customUsername : option jsstring)
    (rnd : jsstring) :
  1 ≤ length (resolveUsername customUsername rnd) ≤ 20.
Proof.
  assert (Hgen : 1 ≤ length (generateUsername rnd) ≤ 20).
  { unfold generateUsername. rewrite substring_2_6, length_app, length_take.
    change (length (of_ascii "Anon-")) with 5. lia. }
  unfold resolveUsername. destruct customUsername as [cu|]; [|done].
  destruct (truthy (Some cu) && truthy (Some (trim cu))) eqn:Hc; [|done].
  apply andb_prop in Hc as [_ Ht]. apply truthy_Some in Ht.
  rewrite substring_from_0, length_take.
  destruct (trim cu); [done|]. cbn [length]. lia.
Qed.

Lemma step_names_inv (st : Server) (e : Event) :
  names_inv st → names_inv (step st e).1.
Proof.
  intros [Hsock Hmsg]. split.
  - destruct e as [sid|sid data rnd now|sid data uuid ts|sid|]; cbn [step].
    + destruct (sockets st !! sid) as [ud0|] eqn:Hs; [done|].
      cbn [fst sockets]. intros c ud [[<- <-] | [_ Hc]]%lookup_insert_Some.
      * split; [by intros name|]. by intros [? ?].
      * by apply (Hsock c).
    + destruct (sockets st !! sid) as [ud0|] eqn:Hs; [|done].
      rewrite join_room_eq. cbn [fst sockets].
      intros c ud [[<- <-] | [_ Hc]]%lookup_insert_Some.
      * cbn [username currentRoom]. split; [|by eauto].
        intros name [= <-]. apply resolveUsername_length.
      * by apply (Hsock c).
    + destruct (sockets st !! sid) as [ud0|] eqn:Hs; [|done].
      by destruct (send_message sid data uuid ts ud0 (rooms st)) as [rs' out].
    + destruct (sockets st !! sid) as [ud0|] eqn:Hs; [|done].
      destruct (disconnect sid ud0 (rooms st)) as [[rs' out] sched].
      cbn [fst sockets]. intros c ud [_ Hc]%lookup_delete_Some.
      by apply (Hsock c).
    + by destruct (timers st).
  - intros R r' m HR Hm.
    destruct (step_room_cases st e R r' HR)
      as [(_ & sid & data & rnd & now & _ & _ & ->)
         | (r & Hr & _ & [Heq | (sid & data & uuid & ts & ud & text & _ & Hs & Hcur & _ & _ & Heq)])].
    + cbn [messages] in Hm. by apply elem_of_nil in Hm.
    + rewrite Heq in Hm. by apply (Hmsg R r).
    + rewrite Heq in Hm. apply pushBounded_elem in Hm as [Hm | ->].
      * by apply (Hmsg R r).
      * cbn [messageObj sender]. destruct (Hsock sid ud Hs) as [Hok Hset].
        split; [apply Hset; rewrite Hcur; eauto | done].
Qed.

Lemma reachable_names_inv (es : list Event) : names_inv (run initial es).
Proof.
  apply (run_invariant names_inv); [apply step_names_inv|].
  split.
  - intros sid ud Hs. cbn in Hs. by rewrite lookup_empty in Hs.
  - intros R r m HR. cbn in HR. by rewrite lookup_empty in HR.
Qed.

(** X9. In every state the server can reach, the display name of a
    session, once set, has between 1 and 20 code units, and a session that
    has a current room has a display name. *)
Theorem display_name_bounded (es : list Event) (sid : jsstring) (ud : UserData) :
  sockets (run initial es) !! sid = Some ud →
  (∀ name, username ud = Some name → 1 ≤ length name ≤ 20)
  ∧ (is_Some (currentRoom ud) → is_Some (username ud)).
Proof.
  intros Hs. destruct (reachable_names_inv es) as [Hsock _].
  exact (Hsock sid ud Hs).
Qed.

Lemma display_name_bounded_witness :
  let es := [Connect sA;
             JoinRoom sA (JoinObject lobby
                            (Some (of_ascii " An extremely long display name ")))
               rnd0 0%N] in
  let ud := {| username := Some (of_ascii "An extremely long di");
               currentRoom := Some lobby |} in
  sockets (run initial es) !! sA = Some ud
  ∧ 1 ≤ length (of_ascii "An extremely long di") ≤ 20.
Proof.
  intros es ud.
  assert (H1 : sockets (run initial es) !! sA = Some ud) by (vm_compute; reflexivity).
  split; [exact H1|].
  exact (proj1 (display_name_bounded es sA ud H1) _ eq_refl).
Defined.

(** X10. In every state the server can reach, every stored message names
    its sender, and that name has between 1 and 20 code units. *)
Theorem stored_sender_named (es : list Event) (R : jsstring) (r : Room)
    (m : Message) :
  rooms (run initial es) !! R = Some r →
  m ∈ messages r →
  ∃ name, sender m = Some name ∧ 1 ≤ length name ≤ 20.
Proof.
  intros HR Hm. destruct (reachable_names_inv es) as [_ Hmsg].
  destruct (Hmsg R r m HR Hm) as [[name Hn] Hok]. exists name. split; [done|].
  by apply Hok.
Qed.

Lemma stored_sender_named_witness :
  let es := [Connect sA; JoinRoom sA (JoinString lobby) (of_ascii "0.i") 5%N;
             SendMessage sA {| sd_message := Some (of_ascii "hi") |}
               (of_ascii "u") (of_ascii "t")] in
  let m := {| id := of_ascii "u"; sender := Some (of_ascii "Anon-i");
              senderId := sA; message := of_ascii "hi";
              timestamp := of_ascii "t" |} in
  let r := {| users := {[sA]}; messages := [m]; createdAt := 5%N |} in
  rooms (run initial es) !! lobby = Some r
  ∧ m ∈ messages r
  ∧ ∃ name, sender m = Some name ∧ 1 ≤ length name ≤ 20.
Proof.
  intros es m r.
  assert (H1 : rooms (run initial es) !! lobby = Some r) by (vm_compute; reflexivity).
  assert (H2 : m ∈ messages r) by apply list_elem_of_here.
  split; [exact H1|]. split; [exact H2|].
  exact (stored_sender_named es lobby r m H1 H2).
Defined.

(** ** Sessions and the rooms they point to *)

Lemma leavePrevious_keeps_member (sid : jsstring) (ud : UserData)
    (rs : gmap jsstring Room) (R : jsstring) (r : Room) (c : jsstring) :
  rs !! R = Some r → c ∈ users r → c ≠ sid →
  ∃ r1, leavePrevious sid ud rs !! R = Some r1 ∧ c ∈ users r1.
Proof.
  intros HR Hin Hc. unfold leavePrevious.
  destruct (currentRoom ud) as [cur|]; [|by eauto].
  destruct (truthy (Some cur)); [|by eauto].
  destruct (rs !! cur) as [p|] eqn:Hp; [|by eauto].
  destruct (decide (cur = R)) as [->|Hne].
  - rewrite lookup_insert_eq. rewrite HR in Hp. injection Hp as <-.
    eexists. split; [reflexivity|]. cbn [set_users users]. set_solver.
  - rewrite lookup_insert_ne by done. eauto.
Qed.

Lemma send_message_keeps_users (sid : jsstring) (data : SendData)
    (uuid ts : jsstring) (ud : UserData) (rs : gmap jsstring Room)
    (R : jsstring) (r : Room) :
  rs !! R = Some r →
  ∃ r', (send_message sid data uuid ts ud rs).1 !! R = Some r'
        ∧ users r' = users r.
Proof.
  intros HR. unfold send_message.
  destruct (currentRoom ud) as [cur|]; [|by eauto].
  destruct (sd_message data) as [msg|]; [|by eauto].
  destruct (negb _ || negb _); [by eauto|].
  destruct (rs !! cur) as [room|] eqn:Hc; [|by eauto].
  cbn [fst]. destruct (decide (cur = R)) as [->|Hne].
  - rewrite lookup_insert_eq. rewrite HR in Hc. injection Hc as <-. eauto.
  - rewrite lookup_insert_ne by done. eauto.
Qed.

Lemma step_current_room_inv (st : Server) (e : Event) :
  current_room_inv st → current_room_inv (step st e).1.
Proof.
  intros Hinv.
  destruct e as [sid|sid data rnd now|sid data uuid ts|sid|]; cbn [step].
  - destruct (sockets st !! sid) as [ud0|] eqn:Hs; [done|].
    intros c ud R Hc Hcur. cbn [fst rooms sockets] in *.
    apply lookup_insert_Some in Hc as [[<- <-] | [_ Hc]]; [done|].
    by apply (Hinv c ud).
  - destruct (sockets st !! sid) as [ud0|] eqn:Hs; [|done].
    rewrite join_room_eq. intros c ud R Hc Hcur. cbn [fst rooms sockets] in *.
    apply lookup_insert_Some in Hc as [[<- <-] | [Hne Hc]].
    + cbn [currentRoom] in Hcur. injection Hcur as <-.
      rewrite lookup_insert_eq. eexists. split; [reflexivity|].
      cbn [set_users users]. set_solver.
    + destruct (Hinv c ud R Hc Hcur) as (r & Hr & Hin).
      destruct (leavePrevious_keeps_member sid ud0 _ R r c Hr Hin)
        as (r1 & H1 & Hin1); [done|].
      destruct (decide (join_roomId data = R)) as [HeqR|HneR].
      * rewrite HeqR, lookup_insert_eq, H1. eexists. split; [reflexivity|].
        cbn [set_users users]. set_solver.
      * rewrite lookup_insert_ne by done. eauto.
  - destruct (sockets st !! sid) as [ud0|] eqn:Hs; [|done].
    intros c ud R.
    pose proof (λ r, send_message_keeps_users sid data uuid ts ud0 (rooms st) R r) as Hk.
    destruct (send_message sid data uuid ts ud0 (rooms st)) as [rs' out].
    cbn [fst rooms sockets] in *. intros Hc Hcur.
    destruct (Hinv c ud R Hc Hcur) as (r & Hr & Hin).
    destruct (Hk r Hr) as (r' & Hr' & Hu). exists r'. by rewrite Hu.
  - destruct (sockets st !! sid) as [ud0|] eqn:Hs; [|done].
    pose proof (disconnect_rooms sid ud0 (rooms st)) as Hr.
    destruct (disconnect sid ud0 (rooms st)) as [[rs' out] sched].
    cbn [fst] in Hr. subst rs'. intros c ud R Hc Hcur.
    cbn [fst rooms sockets] in *.
    apply lookup_delete_Some in Hc as [Hne Hc].
    destruct (Hinv c ud R Hc Hcur) as (r & Hr & Hin).
    by apply (leavePrevious_keeps_member sid ud0 _ R r c).
  - destruct (timers st) as [|roomId rest] eqn:Etimers; [done|].
    intros c ud R Hc Hcur. cbn [fst rooms sockets] in *.
    destruct (Hinv c ud R Hc Hcur) as (r & Hr & Hin). exists r. split; [|done].
    destruct (decide (R = roomId)) as [->|Hne].
    + rewrite (reap_nonempty roomId _ r Hr); [done | set_solver].
    + by rewrite reap_lookup_ne.
Qed.

(** X11. In every state the server can reach, the current room of every
    connected socket is stored and lists that socket as a member.  So the
    only [send_message] events that are ignored are those without
    non-blank text or from a socket without a non-empty current room: any
    other is broadcast to the room. *)
Theorem current_room_stored (es : list Event) (sid : jsstring) (ud : UserData)
    (R : jsstring) :
  sockets (run initial es) !! sid = Some ud →
  currentRoom ud = Some R →
  (∃ r, rooms (run initial es) !! R = Some r ∧ sid ∈ users r)
  ∧ ∀ text uuid ts,
      truthy (Some R) = true →
      truthy (Some (trim text)) = true →
      (step (run initial es)
         (SendMessage sid {| sd_message := Some text |} uuid ts)).2
      = [ (ToRoom R, receive_message (messageObj sid ud text uuid ts)) ].
Proof.
  intros Hs Hcur.
  assert (Hinv : current_room_inv (run initial es)).
  { apply (run_invariant current_room_inv); [apply step_current_room_inv|].
    intros c ud' R' Hc. cbn in Hc. by rewrite lookup_empty in Hc. }
  destruct (Hinv sid ud R Hs Hcur) as (r & Hr & Hin).
  split; [by exists r|].
  intros text uuid ts HtR Ht. cbn [step]. rewrite Hs. unfold send_message.
  cbn [sd_message]. by rewrite Hcur, HtR, Ht, Hr.
Qed.

Lemma current_room_stored_witness :
  let es := [Connect sA; JoinRoom sA (JoinString lobby) rnd0 0%N;
             Disconnect sA; Connect sB;
             JoinRoom sB (JoinString lobby) rnd0 1%N; ReapFires] in
  let ud := {| username := Some (of_ascii "Anon-7x3k");
               currentRoom := Some lobby |} in
  sockets (run initial es) !! sB = Some ud
  ∧ ∃ r, rooms (run initial es) !! lobby = Some r ∧ sB ∈ users r.
Proof.
  intros es ud.
  assert (H1 : sockets (run initial es) !! sB = Some ud) by (vm_compute; reflexivity).
  split; [exact H1|].
  exact (proj1 (current_room_stored es sB ud lobby H1 eq_refl)).
Defined.

(** X12. When every [join_room] received so far carried a payload of the
    documented shape whose room identifier is a non-empty string (so none
    named [""], and none came without a string [roomId]), every member of
    a stored room is a connected socket whose current room is that room: a
    socket is listed in at most one room, the one it joined last. *)
Theorem member_of_current_room_only (es : list Event) (sid R R' : jsstring)
    (r r' : Room) :
  forallb join_target_nonempty es = true →
  rooms (run initial es) !! R = Some r → sid ∈ users r →
  rooms (run initial es) !! R' = Some r' → sid ∈ users r' →
  R = R'
  ∧ ∃ ud, sockets (run initial es) !! sid = Some ud ∧ currentRoom ud = Some R.
Proof.
  intros Hes HR Hin HR' Hin'.
  destruct (single_membership es sid R r Hes HR Hin) as (ud & Hs & Hcur).
  destruct (single_membership es sid R' r' Hes HR' Hin') as (ud' & Hs' & Hcur').
  split; [congruence | eauto].
Qed.

Lemma member_of_current_room_only_witness :
  let es := [Connect sA; JoinRoom sA (JoinString lobby) rnd0 0%N;
             JoinRoom sA (JoinString den) rnd0 1%N] in
  let r := {| users := {[sA]}; messages := []; createdAt := 1%N |} in
  forallb join_target_nonempty es = true
  ∧ rooms (run initial es) !! den = Some r
  ∧ sA ∈ users r
  ∧ ∃ ud, sockets (run initial es) !! sA = Some ud ∧ currentRoom ud = Some den.
Proof.
  intros es r.
  assert (H0 : forallb join_target_nonempty es = true) by reflexivity.
  assert (H1 : rooms (run initial es) !! den = Some r) by (vm_compute; reflexivity).
  assert (H2 : sA ∈ users r) by (apply (bool_decide_unpack _); vm_compute; exact I).
  split; [exact H0|]. split; [exact H1|]. split; [exact H2|].
  exact (proj2 (member_of_current_room_only es sA den den r r H0 H1 H2 H1 H2)).
Defined.

(** ** Creation and deletion of rooms *)

(** X13. A room identifier that is not stored before an event and is
    stored after it was named by a [join_room] of a connected socket: no
    other event creates a room. *)
Theorem room_created_only_by_join (st : Server) (e : Event) (R : jsstring) :
  rooms st !! R = None →
  is_Some (rooms (step st e).1 !! R) →
  ∃ sid data rnd now,
    e = JoinRoom sid data rnd now ∧ R = join_roomId data
    ∧ is_Some (sockets st !! sid)
    ∧ rooms (step st e).1 !! R
      = Some {| users := {[sid]}; messages := []; createdAt := now |}.
Proof.
  intros Hnone [r' HR]. pose proof HR as HR'.
  apply step_room_cases in HR'
    as [(_ & sid & data & rnd & now & -> & -> & ->) | (r & Hr & _)];
    [|congruence].
  exists sid, data, rnd, now. split; [done|]. split; [done|]. split; [|done].
  cbn [step] in HR. destruct (sockets st !! sid) eqn:Hs; [by eauto|].
  cbn [fst] in HR. congruence.
Qed.

Lemma room_created_only_by_join_witness :
  let st := run initial [Connect sA] in
  let e := JoinRoom sA (JoinString lobby) rnd0 9%N in
  rooms st !! lobby = None
  ∧ is_Some (rooms (step st e).1 !! lobby)
  ∧ ∃ sid data rnd now,
      e = JoinRoom sid data rnd now ∧ lobby = join_roomId data
      ∧ is_Some (sockets st !! sid)
      ∧ rooms (step st e).1 !! lobby
        = Some {| users := {[sid]}; messages := []; createdAt := now |}.
Proof.
  intros st e.
  assert (H1 : rooms st !! lobby = None) by (vm_compute; reflexivity).
  assert (H2 : is_Some (rooms (step st e).1 !! lobby)) by (vm_compute; eauto).
  split; [exact H1|]. split; [exact H2|].
  exact (room_created_only_by_join st e lobby H1 H2).
Defined.

(** X14. A room that is stored before an event and not after it was
    deleted by the reaper: the event is the firing of the oldest pending
    reap, that reap names this room, and the room had no member.  Joins,
    messages and disconnects never delete a room. *)
Theorem room_deleted_only_by_reap (st : Server) (e : Event) (R : jsstring)
    (r : Room) :
  rooms st !! R = Some r →
  rooms (step st e).1 !! R = None →
  e = ReapFires ∧ head (timers st) = Some R ∧ users r = ∅.
Proof.
  intros HR Hgone.
  assert (Hs : is_Some (rooms st !! R)) by (rewrite HR; eauto).
  destruct e as [sid|sid data rnd now|sid data uuid ts|sid|]; cbn [step] in Hgone.
  - destruct (sockets st !! sid); cbn [fst rooms] in Hgone; congruence.
  - destruct (sockets st !! sid) as [ud|]; [|cbn [fst rooms] in Hgone; congruence].
    pose proof (join_room_is_Some sid data rnd now ud _ R Hs) as [x Hx].
    destruct (join_room sid data rnd now ud (rooms st)) as [[ud' rs'] out].
    cbn [fst snd rooms] in *. congruence.
  - destruct (sockets st !! sid) as [ud|]; [|cbn [fst rooms] in Hgone; congruence].
    pose proof (send_message_is_Some sid data uuid ts ud _ R Hs) as [x Hx].
    destruct (send_message sid data uuid ts ud (rooms st)) as [rs' out].
    cbn [fst snd rooms] in *. congruence.
  - destruct (sockets st !! sid) as [ud|]; [|cbn [fst rooms] in Hgone; congruence].
    pose proof (disconnect_rooms sid ud (rooms st)) as Hr.
    destruct (disconnect sid ud (rooms st)) as [[rs' out] sched].
    cbn [fst snd rooms] in *. subst rs'.
    apply (leavePrevious_is_Some sid ud) in Hs as [x Hx]. congruence.
  - split; [done|].
    destruct (timers st) as [|roomId rest]; cbn [fst rooms] in Hgone;
      [congruence|].
    destruct (decide (R = roomId)) as [->|Hne].
    + split; [done|]. destruct (decide (users r = ∅)) as [He|Hn]; [done|].
      rewrite (reap_nonempty roomId _ r HR Hn) in Hgone. congruence.
    + rewrite reap_lookup_ne in Hgone by done. congruence.
Qed.

Lemma room_deleted_only_by_reap_witness :
  let st := run initial [Connect sA; JoinRoom sA (JoinString lobby) rnd0 0%N;
                         Disconnect sA] in
  let r := {| users := ∅; messages := []; createdAt := 0%N |} in
  rooms st !! lobby = Some r
  ∧ rooms (step st ReapFires).1 !! lobby = None
  ∧ head (timers st) = Some lobby.
Proof.
  intros st r.
  assert (H1 : rooms st !! lobby = Some r) by (vm_compute; reflexivity).
  assert (H2 : rooms (step st ReapFires).1 !! lobby = None)
    by (vm_compute; reflexivity).
  split; [exact H1|]. split; [exact H2|].
  exact (proj1 (proj2 (room_deleted_only_by_reap st ReapFires lobby r H1 H2))).
Defined.

(** ** From the last disconnect to the deletion *)

Lemma reap_dead (x R : jsstring) (rs : gmap jsstring Room) :
  (∀ r, rs !! R = Some r → users r = ∅) →
  ∀ r, reap x rs !! R = Some r → users r = ∅.
Proof. intros Hd r Hr. by eapply Hd, reap_lookup_Some. Qed.

Lemma run_reaps (ts : list jsstring) (R : jsstring) (st : Server) :
  (∀ r, rooms st !! R = Some r → users r = ∅) →
  timers st = ts ++ [R] →
  rooms (run st (repeat ReapFires (S (length ts)))) !! R = None.
Proof.
  revert st. induction ts as [|x ts IH]; intros st Hd Ht.
  - cbn [length repeat run step]. rewrite Ht. cbn [app fst rooms run].
    destruct (rooms st !! R) as [r|] eqn:Hr.
    + rewrite (reap_empty R _ r Hr (Hd r eq_refl)). apply lookup_delete_eq.
    + by rewrite reap_absent.
  - cbn [length]. change (repeat ReapFires (S (S (length ts))))
      with (ReapFires :: repeat ReapFires (S (length ts))).
    cbn [run step]. rewrite Ht. cbn [app fst]. apply IH; cbn [rooms timers].
    + by apply reap_dead.
    + done.
Qed.

(** X15. When the only member of a stored room disconnects, a reap for
    that room is queued behind the reaps already pending; once those and
    it have fired with no event in between, the room is no longer in the
    store. *)
Theorem last_disconnect_then_reaps (st : Server) (sid : jsstring)
    (ud : UserData) (R : jsstring) (r : Room) :
  sockets st !! sid = Some ud →
  currentRoom ud = Some R →
  truthy (Some R) = true →
  rooms st !! R = Some r →
  users r ⊆ {[sid]} →
  timers (step st (Disconnect sid)).1 = timers st ++ [R]
  ∧ rooms (run st (Disconnect sid
                   :: repeat ReapFires (S (length (timers st))))) !! R = None.
Proof.
  intros Hs Hcur Ht HR Hsub.
  assert (Hstep : (step st (Disconnect sid)).1 =
            {| rooms := <[R := set_users r ∅]> (rooms st);
               sockets := delete sid (sockets st);
               timers := timers st ++ [R] |}).
  { cbn [step]. rewrite Hs. unfold disconnect. rewrite Hcur, Ht, HR.
    assert (He : users r ∖ {[sid]} = ∅) by set_solver.
    cbn [set_users users fst]. rewrite He, size_empty. by case_decide. }
  split; [by rewrite Hstep|].
  cbn [run]. rewrite Hstep. apply run_reaps; cbn [rooms timers]; [|done].
  intros r0. rewrite lookup_insert_eq. by intros [= <-].
Qed.

Lemma last_disconnect_then_reaps_witness :
  let st := run initial [Connect sA; Connect sB;
                         JoinRoom sA (JoinString den) rnd0 0%N;
                         JoinRoom sB (JoinString lobby) rnd0 1%N;
                         Disconnect sA] in
  let ud := {| username := Some (of_ascii "Anon-7x3k");
               currentRoom := Some lobby |} in
  let r := {| users := {[sB]}; messages := []; createdAt := 1%N |} in
  sockets st !! sB = Some ud
  ∧ rooms st !! lobby = Some r
  ∧ users r ⊆ {[sB]}
  ∧ timers st = [den]
  ∧ rooms (run st [Disconnect sB; ReapFires; ReapFires]) !! lobby = None.
Proof.
  intros st ud r.
  assert (H1 : sockets st !! sB = Some ud) by (vm_compute; reflexivity).
  assert (H2 : rooms st !! lobby = Some r) by (vm_compute; reflexivity).
  assert (H3 : users r ⊆ {[sB]}) by reflexivity.
  assert (H4 : timers st = [den]) by (vm_compute; reflexivity).
  split; [exact H1|]. split; [exact H2|]. split; [exact H3|]. split; [exact H4|].
  pose proof (proj2 (last_disconnect_then_reaps st sB ud lobby r H1 eq_refl
                       eq_refl H2 H3)) as H.
  rewrite H4 in H. exact H.
Defined.

(** ** The room with the empty identifier *)

Lemma disconnect_scheduled_truthy (sid : jsstring) (ud : UserData)
    (rs : gmap jsstring Room) (x : jsstring) :
  x ∈ (disconnect sid ud rs).2 → truthy (Some x) = true.
Proof.
  unfold disconnect.
  destruct (currentRoom ud) as [cur|]; [|by intros ?%elem_of_nil].
  destruct (truthy (Some cur)) eqn:Ht; [|by intros ?%elem_of_nil].
  destruct (rs !! cur); [|by intros ?%elem_of_nil].
  cbn [snd]. case_decide; [|by intros ?%elem_of_nil].
  by intros ->%list_elem_of_singleton.
Qed.

Lemma step_no_empty_timer (st : Server) (e : Event) :
  [] ∉ timers st → [] ∉ timers (step st e).1.
Proof.
  intros Hn.
  destruct e as [sid|sid data rnd now|sid data uuid ts|sid|]; cbn [step].
  - by destruct (sockets st !! sid).
  - destruct (sockets st !! sid) as [ud|]; [|done].
    by destruct (join_room sid data rnd now ud (rooms st)) as [[ud' rs'] out].
  - destruct (sockets st !! sid) as [ud|]; [|done].
    by destruct (send_message sid data uuid ts ud (rooms st)) as [rs' out].
  - destruct (sockets st !! sid) as [ud|]; [|done].
    pose proof (disconnect_scheduled_truthy sid ud (rooms st) []) as Hsch.
    destruct (disconnect sid ud (rooms st)) as [[rs' out] sched].
    cbn [fst snd timers] in *. rewrite elem_of_app.
    intros [Hin|Hin]; [by apply Hn|]. by apply Hsch in Hin.
  - destruct (timers st) as [|roomId rest] eqn:Etimers; cbn [fst timers].
    + by rewrite Etimers.
    + intros Hin. by apply Hn, list_elem_of_further.
Qed.

Lemma step_empty_id_kept (st : Server) (e : Event) :
  empty_id_kept st → empty_id_kept (step st e).1.
Proof.
  intros [Hs Hn]. split; [|by apply step_no_empty_timer].
  destruct e as [sid|sid data rnd now|sid data uuid ts|sid|]; cbn [step].
  - by destruct (sockets st !! sid).
  - destruct (sockets st !! sid) as [ud|]; [|done].
    pose proof (join_room_is_Some sid data rnd now ud _ [] Hs) as H.
    by destruct (join_room sid data rnd now ud (rooms st)) as [[ud' rs'] out].
  - destruct (sockets st !! sid) as [ud|]; [|done].
    pose proof (send_message_is_Some sid data uuid ts ud _ [] Hs) as H.
    by destruct (send_message sid data uuid ts ud (rooms st)) as [rs' out].
  - destruct (sockets st !! sid) as [ud|]; [|done].
    pose proof (disconnect_rooms sid ud (rooms st)) as Hr.
    destruct (disconnect sid ud (rooms st)) as [[rs' out] sched].
    cbn [fst snd rooms] in *. subst rs'. by apply leavePrevious_is_Some.
  - destruct (timers st) as [|roomId rest] eqn:Etimers; [done|].
    cbn [fst rooms]. rewrite reap_lookup_ne; [done|].
    intros <-. apply Hn, list_elem_of_here.
Qed.

(** X16. No reap is ever scheduled for the empty room identifier, so once
    the room [""] has been created it stays in the store through every
    later event, members or not. *)
Theorem empty_room_id_never_reaped (es1 es2 : list Event) :
  is_Some (rooms (run initial es1) !! []) →
  ([] ∉ timers (run initial (es1 ++ es2)))
  ∧ is_Some (rooms (run initial (es1 ++ es2)) !! []).
Proof.
  intros Hs.
  assert (Hn : ∀ es, [] ∉ timers (run initial es)).
  { intros es. apply (run_invariant (λ st, [] ∉ timers st)).
    - apply step_no_empty_timer.
    - apply not_elem_of_nil. }
  split; [apply Hn|]. rewrite run_app.
  apply (run_invariant _ step_empty_id_kept es2 (run initial es1)).
  split; [done | apply Hn].
Qed.

Lemma empty_room_id_never_reaped_witness :
  let es1 := [Connect sA; JoinRoom sA (JoinString []) rnd0 0%N] in
  let es2 := [Disconnect sA; ReapFires; Connect sB;
              JoinRoom sB (JoinString []) rnd0 1%N;
              JoinRoom sB (JoinString lobby) rnd0 2%N;
              Disconnect sB; ReapFires; ReapFires] in
  is_Some (rooms (run initial es1) !! [])
  ∧ is_Some (rooms (run initial (es1 ++ es2)) !! [])
  ∧ rooms (run initial (es1 ++ es2)) !! lobby = None.
Proof.
  intros es1 es2.
  assert (H1 : is_Some (rooms (run initial es1) !! [])) by (vm_compute; eauto).
  split; [exact H1|].
  split; [exact (proj2 (empty_room_id_never_reaped es1 es2 H1))|].
  vm_compute. reflexivity.
Defined.

(** ** REST endpoints *)




